(** * django-components: rendering lifecycle and dependency aggregation

    A shallow embedding of [django_components/dependencies.py] and of the
    rendering part of [django_components/component.py], with the properties
    of the specification stated over it.

    Conventions of the embedding.
    - A Python [str] is a Rocq [string] holding its UTF-8 bytes, and a
      Python [bytes] value is a [string] too, so [encode()] and [decode()]
      are the identity.  [\w] in the (bytes) patterns of the source is
      therefore the ASCII class [[a-zA-Z0-9_]].
    - A dict used as a map is a [gmap]; a list is a [list].
    - A call that may raise returns a [result]; code that mutates the
      process-wide cache, the class registry or a component instance
      threads them explicitly, and they survive a raised exception.
    - The collaborators that are not part of these two files (the template
      loader, [Media], [reverse], [static], the HTML parser, [md5],
      [base64]) are the fields of the class [Externals]. *)

From stdpp Require Import gmap strings list.
From Stdlib Require Import Ascii String ZArith Lia.

Set Warnings "-register-all,-clear-no-such-hyp".
#[local] Arguments String.append : simpl nomatch.
#[local] Open Scope string_scope.
#[local] Open Scope list_scope.

(** ** Python values, exceptions and results *)

Inductive pyval :=
| PStr (s : string)
| PInt (z : Z)
| PNone.

(** An exception object: its class, its [args] tuple and the [_components]
    attribute that [Component._render] attaches ([None]: no attribute). *)
Record exn := Exn {
  exn_class : string;
  exn_args : list pyval;
  exn_components : option (list string)
}.

Inductive result (A : Type) :=
| Ok (a : A)
| Raise (e : exn).
Arguments Ok {A} a.
Arguments Raise {A} e.

Definition new_exn (cls msg : string) : exn := Exn cls [PStr msg] None.

#[global] Instance result_ret : MRet result := λ A a, Ok a.
#[global] Instance result_bind : MBind result := λ A B k r,
  match r with
  | Ok a => k a
  | Raise e => Raise e
  end.

(** ** Strings *)

Definition dq : string := String "034"%char "".
Definition nl : string := String "010"%char "".

Definition is_empty (s : string) : bool :=
  match s with "" => true | _ => false end.

(** The ASCII characters [str.strip()] removes. *)
Definition is_space (a : ascii) : bool :=
  let n := nat_of_ascii a in
  ((9 <=? n) && (n <=? 13) || (28 <=? n) && (n <=? 32))%nat.

Fixpoint lstrip (s : string) : string :=
  match s with
  | "" => ""
  | String c s' => if is_space c then lstrip s' else s
  end.

Fixpoint rstrip (s : string) : string :=
  match s with
  | "" => ""
  | String c s' =>
      let r := rstrip s' in
      if is_space c && is_empty r then "" else String c r
  end.

Definition strip (s : string) : string := rstrip (lstrip s).

(** [s[len(p):]] when [s] starts with [p]. *)
Fixpoint strip_prefix (p s : string) : option string :=
  match p, s with
  | "", _ => Some s
  | String a p', String b s' =>
      if Ascii.eqb a b then strip_prefix p' s' else None
  | String _ _, "" => None
  end.

Definition starts_with (p s : string) : bool :=
  match strip_prefix p s with Some _ => true | None => false end.

(** [sub in s] *)
Fixpoint contains (sub s : string) : bool :=
  starts_with sub s ||
  match s with
  | "" => false
  | String _ s' => contains sub s'
  end.

(** [sep.join(l)] *)
Fixpoint join (sep : string) (l : list string) : string :=
  match l with
  | [] => ""
  | [x] => x
  | x :: l' => x +:+ sep +:+ join sep l'
  end.

Fixpoint concat_str (l : list string) : string :=
  match l with
  | [] => ""
  | x :: l' => x +:+ concat_str l'
  end.

(** The longest prefix of [s] whose characters satisfy [p], and the rest. *)
Fixpoint span (p : ascii → bool) (s : string) : string * string :=
  match s with
  | "" => ("", "")
  | String c s' =>
      if p c then let '(a, b) := span p s' in (String c a, b) else ("", s)
  end.

Fixpoint all_chars (p : ascii → bool) (s : string) : bool :=
  match s with
  | "" => true
  | String c s' => p c && all_chars p s'
  end.

(** [s.split(sep, 1)] for a one-character separator: the text before the
    first [sep] and, when there is one, the text after it. *)
Fixpoint split_once (sep : ascii) (s : string) : string * option string :=
  match s with
  | "" => ("", None)
  | String c s' =>
      if Ascii.eqb c sep then ("", Some s')
      else let '(a, b) := split_once sep s' in (String c a, b)
  end.

(** [sorted(l)] on strings: insertion sort by [String.leb], stable. *)
Fixpoint insert_sorted (x : string) (l : list string) : list string :=
  match l with
  | [] => [x]
  | y :: l' => if String.leb x y then x :: l else y :: insert_sorted x l'
  end.

Definition sorted (l : list string) : list string :=
  foldr insert_sorted [] l.

(** ** The data model *)

Definition Kwargs := list (string * pyval).

(** A slot fill as [render] receives it: [None], static text, or a render
    function of the slot data. *)
Inductive SlotContent :=
| SlotNone
| SlotText (s : string)
| SlotFunc (f : Kwargs → string).

(** A normalized fill ([Slot]): its render function. *)
Record Slot := MkSlot {
  content_func : Kwargs → string
}.

(** One scope of a Django [Context]: the data of [get_context_data], or the
    private keys and [component_vars] that [_render_impl] adds. *)
Inductive Scope :=
| DataScope (data : Kwargs)
| ComponentScope (component_name : string) (template_name : option string)
    (is_filled : list (string * bool)).

(** [django.template.Context]: the stack of scopes, the depth of its
    [render_context] stack, whether it is bound to a request, and whether
    fills are being extracted from it ([_is_extracting_fill]). *)
Record Context := MkContext {
  dicts : list Scope;
  render_context : nat;
  has_request : bool;
  is_extracting_fill : bool
}.

(** [django.template.Template]: its name and the [_dc_patched] attribute
    ([None]: the class was never patched). *)
Record Template := MkTemplate {
  tpl_name : option string;
  _dc_patched : option bool
}.

Inductive TemplateInput :=
| TemplateStr (s : string)
| TemplateObj (t : Template).

(** [django.forms.Media]: script paths, and style-sheet paths per medium. *)
Record Media := MkMedia {
  media_js : list string;
  media_css : list (string * list string)
}.

(** A node of a template: literal text, or a [{% component %}] tag with the
    class the registry resolves its name to ([None]: not registered). *)
Inductive Node (C : Type) :=
| TextNode (s : string)
| ComponentNode (name : string) (cls : option C)
    (args : list pyval) (kwargs : Kwargs)
    (fills : list (string * SlotContent)) (node_id : option string)
    (isolated_context : bool).
Arguments TextNode {C} s.
Arguments ComponentNode {C} name cls args kwargs fills node_id isolated_context.

(** A component class.  The methods a subclass may override are fields;
    [nodelist] is the node list of the template the class resolves to
    (parsing belongs to the template engine).  [get_template_string] is
    the legacy attribute read with [getattr]: [None] when the class does
    not define it. *)
Inductive CompCls := MkCompCls {
  __name__ : string;
  import_path : string;
  js : option string;
  css : option string;
  media : Media;
  template_name : option string;
  get_template_name : Context → result (option string);
  template : option TemplateInput;
  get_template : Context → result (option TemplateInput);
  get_template_string : option (Context → result (option TemplateInput));
  _validate_inputs :
    list pyval → Kwargs → list (string * SlotContent) → result unit;
  get_context_data : list pyval → Kwargs → result Kwargs;
  _validate_outputs : Kwargs → result unit;
  on_render_before : Context → Template → result unit;
  on_render_after : Context → Template → string → result (option string);
  nodelist : list (Node CompCls)
}.

Record RenderInput := MkRenderInput {
  context : Context;
  args : list pyval;
  kwargs : Kwargs;
  slots : list (string * Slot);
  type : string;
  render_dependencies : bool
}.

Record RenderStackItem := MkRenderStackItem {
  input : RenderInput;
  is_filled : option (list (string * bool))
}.

(** A component instance; the deque [_render_stack] is a list whose last
    element is the innermost frame. *)
Record Component := MkComponent {
  component_cls : CompCls;
  registered_name : option string;
  component_id : string;
  outer_context : Context;
  _render_stack : list RenderStackItem
}.

(** The process-wide state: the [_data] dict of [comp_media_cache] and the
    [comp_hash_mapping] registry. *)
Record World := MkWorld {
  comp_media_cache : gmap string string;
  comp_hash_mapping : gmap string CompCls
}.

(** *** HTML nodes

    Modelled from the spec: [django_components.util.html.SoupNode] is not
    among the sources; the spec speaks of "HTML parsing utilities used for
    tag manipulation" and of "the end of the head section and ... the end
    of the body section of the parsed document structure".  A node is text
    or an element with attributes and children. *)
Inductive SoupNode :=
| SoupText (s : string)
| SoupElem (tag : string) (attrs : list (string * string))
    (children : list SoupNode).

(** ** The collaborators *)

Class Externals := {
  (** [md5(s.encode()).hexdigest()] *)
  md5_hexdigest : string → string;
  (** [gen_id()], for an instance created without a [component_id] *)
  gen_id : string;
  (** [django.template.loader.get_template(name).template] *)
  loader_get_template : string → result Template;
  (** [django_components.template.cached_template] *)
  cached_template : string → result Template;
  (** [reverse(CACHE_ENDPOINT_NAME, kwargs={comp_cls_hash, script_type})] *)
  reverse : string → string → string;
  (** [django.templatetags.static.static] *)
  static : string → string;
  (** [Media.render_js()] and [Media.render_css()] *)
  render_js : Media → list string;
  render_css : Media → list string;
  (** [SoupNode.from_fragment] and [SoupNode.to_html_multiroot] *)
  from_fragment : string → list SoupNode;
  to_html_multiroot : list SoupNode → string;
  (** [base64.b64encode(s.encode()).decode()] *)
  b64encode : string → string;
  (** [django_components.context.get_injected_context_var] *)
  get_injected_context_var :
    string → Context → string → pyval → result pyval;
  (** [django.utils.html.conditional_escape] *)
  conditional_escape : string → string;
  (** [django_components.context.make_isolated_context_copy] *)
  make_isolated_context_copy : Context → Context
}.

(** * dependencies.py *)

Definition RuntimeError (msg : string) : exn := new_exn "RuntimeError" msg.
Definition ValueError (msg : string) : exn := new_exn "ValueError" msg.
Definition TypeError (msg : string) : exn := new_exn "TypeError" msg.
Definition KeyError (msg : string) : exn := new_exn "KeyError" msg.
Definition ImproperlyConfigured (msg : string) : exn :=
  new_exn "ImproperlyConfigured" msg.

(** ** 1. The cache of inlined JS and CSS *)

Module InMemoryComponentMediaCache.
Definition get (_data : gmap string string) (key : string) : option string :=
  _data !! key.
Definition has (_data : gmap string string) (key : string) : bool :=
  bool_decide (is_Some (_data !! key)).
Definition set (_data : gmap string string) (key value : string)
  : gmap string string :=
  <[key := value]> _data.
End InMemoryComponentMediaCache.

Definition set_cache (w : World) (c : gmap string string) : World :=
  MkWorld c (comp_hash_mapping w).
Definition set_mapping (w : World) (m : gmap string CompCls) : World :=
  MkWorld (comp_media_cache w) m.

Definition _is_nonempty_str (txt : option string) : bool :=
  match txt with
  | None => false
  | Some t => negb (is_empty (strip t))
  end.

Definition _gen_cache_key (comp_cls_hash script_type : string) : string :=
  "__components:" +:+ comp_cls_hash +:+ ":" +:+ script_type.

Section Cache.
Context `{Externals}.

Definition _hash_comp_cls (comp_cls : CompCls) : string :=
  let full_name := import_path comp_cls in
  let comp_cls_hash := substring 0 6 (md5_hexdigest full_name) in
  __name__ comp_cls +:+ "_" +:+ comp_cls_hash.

Definition _is_script_in_cache (comp_cls : CompCls) (script_type : string)
    (w : World) : bool :=
  let comp_cls_hash := _hash_comp_cls comp_cls in
  let cache_key := _gen_cache_key comp_cls_hash script_type in
  InMemoryComponentMediaCache.has (comp_media_cache w) cache_key.

Definition _cache_script (comp_cls : CompCls) (script script_type : string)
    (w : World) : result World :=
  let comp_cls_hash := _hash_comp_cls comp_cls in
  if bool_decide (script_type = "js") || bool_decide (script_type = "css")
  then
    let cache_key := _gen_cache_key comp_cls_hash script_type in
    Ok (set_cache w
          (InMemoryComponentMediaCache.set (comp_media_cache w) cache_key
             (strip script)))
  else
    Raise (ValueError ("Unexpected script_type '" +:+ script_type +:+ "'")).

Definition cache_inlined_js (comp_cls : CompCls) (content : string)
    (w : World) : result World :=
  if negb (_is_nonempty_str (js comp_cls)) then Ok w
  else if negb (_is_script_in_cache comp_cls "js" w)
  then _cache_script comp_cls content "js" w
  else Ok w.

Definition cache_inlined_css (comp_cls : CompCls) (content : string)
    (w : World) : result World :=
  if negb (_is_nonempty_str (js comp_cls)) then Ok w
  else if negb (_is_script_in_cache comp_cls "css" w)
  then _cache_script comp_cls content "css" w
  else Ok w.

(** ** 2. The marker comment *)

(** [COMPONENT_DEPS_COMMENT.format(data=data)] *)
Definition COMPONENT_DEPS_COMMENT (data : string) : string :=
  "<!-- _RENDERED " +:+ data +:+ " -->".

Definition _insert_component_comment (content : string)
    (component_cls : CompCls) (component_id : string) (w : World)
    : string * World :=
  let comp_cls_hash := _hash_comp_cls component_cls in
  let w := set_mapping w
             (<[comp_cls_hash := component_cls]> (comp_hash_mapping w)) in
  let data := comp_cls_hash +:+ "," +:+ component_id in
  (COMPONENT_DEPS_COMMENT data +:+ content, w).
End Cache.

(** ** 3. The patterns *)

Definition CSS_DEPENDENCY_PLACEHOLDER : string :=
  "<link name=" +:+ dq +:+ "CSS_PLACEHOLDER" +:+ dq +:+ ">".
Definition JS_DEPENDENCY_PLACEHOLDER : string :=
  "<script name=" +:+ dq +:+ "JS_PLACEHOLDER" +:+ dq +:+ "></script>".

(** [\w] of a bytes pattern *)
Definition is_word (a : ascii) : bool :=
  let n := nat_of_ascii a in
  ((48 <=? n) && (n <=? 57) || (65 <=? n) && (n <=? 90)
   || (97 <=? n) && (n <=? 122) || (n =? 95))%nat.

(** [[\w\-,/]], the class of [COMPONENT_COMMENT_REGEX] *)
Definition is_comment_data_char (a : ascii) : bool :=
  is_word a || Ascii.eqb a "-" || Ascii.eqb a "," || Ascii.eqb a "/".

(** [[\w\-\./]], the class of the [comp_cls_hash] group *)
Definition is_cls_hash_char (a : ascii) : bool :=
  is_word a || Ascii.eqb a "-" || Ascii.eqb a "." || Ascii.eqb a "/".

(** A match of [COMPONENT_COMMENT_REGEX] at the start of [s]: the [data]
    group and the text after the match.  The class has no space, so the
    lazy group can only end where the run of class characters ends. *)
Definition COMPONENT_COMMENT_REGEX (s : string) : option (string * string) :=
  match strip_prefix "<!-- _RENDERED " s with
  | None => None
  | Some r =>
      let '(data, r') := span is_comment_data_char r in
      if is_empty data then None
      else match strip_prefix " -->" r' with
           | None => None
           | Some rest => Some (data, rest)
           end
  end.

(** [$] also matches before a final newline. *)
Fixpoint chomp_newline (s : string) : string :=
  match s with
  | "" => ""
  | String c s' =>
      if Ascii.eqb c "010" && is_empty s' then "" else String c (chomp_newline s')
  end.

(** [SCRIPT_NAME_REGEX.match(part)]: the groups [comp_cls_hash] and [id].
    The first group has no comma, so it ends at the first comma. *)
Definition SCRIPT_NAME_REGEX (part : string) : option (string * string) :=
  match split_once "," part with
  | (_, None) => None
  | (comp_cls_hash, Some r) =>
      let id := chomp_newline r in
      if negb (is_empty comp_cls_hash) && all_chars is_cls_hash_char comp_cls_hash
         && negb (is_empty id) && all_chars is_word id
      then Some (comp_cls_hash, id)
      else None
  end.

(** A match of [PLACEHOLDER_REGEX] at the start of [s]: which alternative
    matched ([true]: the CSS placeholder) and the text after the match. *)
Definition PLACEHOLDER_REGEX (s : string) : option (bool * string) :=
  match strip_prefix CSS_DEPENDENCY_PLACEHOLDER s with
  | Some rest => Some (true, rest)
  | None =>
      match strip_prefix JS_DEPENDENCY_PLACEHOLDER s with
      | Some rest => Some (false, rest)
      | None => None
      end
  end.

(** [pattern.sub(on_replace_match, s)] for a pattern that never matches the
    empty string: the matches from left to right, not overlapping, and [s]
    with each match replaced.  [skip] counts the characters of the current
    match that are still to be passed over. *)
Fixpoint regex_sub {A} (pattern : string → option (A * string))
    (on_replace_match : A → string) (skip : nat) (s : string)
    : list A * string :=
  match s with
  | "" => ([], "")
  | String c s' =>
      match skip with
      | S k => regex_sub pattern on_replace_match k s'
      | O =>
          match pattern s with
          | Some (x, rest) =>
              let '(xs, out) :=
                regex_sub pattern on_replace_match
                  (String.length s' - String.length rest) s' in
              (x :: xs, on_replace_match x +:+ out)
          | None =>
              let '(xs, out) := regex_sub pattern on_replace_match 0 s' in
              (xs, String c out)
          end
      end
  end.

(** *** Operations on HTML nodes *)

(** Modelled from the spec: [SoupNode.is_element] is not among the
    sources; an element is a node of "the parsed document structure" that
    is not text. *)
Definition is_element (n : SoupNode) : bool :=
  match n with
  | SoupElem _ _ _ => true
  | SoupText _ => false
  end.

(** Modelled from the spec: [SoupNode.name] is not among the sources; the
    tag name of an element. *)
Definition node_name (n : SoupNode) : string :=
  match n with
  | SoupElem tag _ _ => tag
  | SoupText _ => ""
  end.

(** Modelled from the spec: [SoupNode.get_attr] is not among the sources;
    "the required URL attribute ([src] for scripts, [href] for style
    links)" of a tag, or the default [None]. *)
Definition get_attr (attr : string) (n : SoupNode) : option string :=
  match n with
  | SoupElem _ attrs _ =>
      snd <$> find (λ kv, String.eqb (fst kv) attr) attrs
  | SoupText _ => None
  end.

(** The first of the nodes [cs], numbered from [i], in which [f] finds
    something, with its number put before what was found. *)
Fixpoint find_first (f : SoupNode → option (list nat)) (i : nat)
    (cs : list SoupNode) : option (list nat) :=
  match cs with
  | [] => None
  | c :: cs' =>
      match f c with
      | Some p => Some (i :: p)
      | None => find_first f (S i) cs'
      end
  end.

(** Modelled from the spec: [SoupNode.find_tag] is not among the sources;
    it locates "the head section" or "the body section of the parsed
    document structure": the node itself when it has that tag, else its
    first descendant in document order that has it.  The node found is a
    reference into the tree, here the path of child indices to it. *)
Fixpoint find_tag (tag : string) (n : SoupNode) : option (list nat) :=
  match n with
  | SoupText _ => None
  | SoupElem t _ cs =>
      if String.eqb t tag then Some []
      else find_first (find_tag tag) 0 cs
  end.

(** Modelled from the spec: [SoupNode.append_children] is not among the
    sources; it puts the new nodes "at the end of" the section, in place:
    the node at [path] of the tree gets them after its children. *)
Fixpoint append_children (path : list nat) (new : list SoupNode)
    (n : SoupNode) : SoupNode :=
  match n with
  | SoupText _ => n
  | SoupElem t a cs =>
      match path with
      | [] => SoupElem t a (cs ++ new)
      | i :: p => SoupElem t a (alter (append_children p new) i cs)
      end
  end.

(** The node a path refers to. *)
Fixpoint node_at (path : list nat) (n : SoupNode) : option SoupNode :=
  match path with
  | [] => Some n
  | i :: p =>
      match n with
      | SoupText _ => None
      | SoupElem _ _ cs => cs !! i ≫= node_at p
      end
  end.

(** ** 3. Aggregation *)

Record TagsAndUrls := MkTagsAndUrls {
  to_load_js_urls : list string;
  to_load_css_urls : list string;
  inlined_js_tags : list string;
  inlined_css_tags : list string;
  loaded_js_urls : list string;
  loaded_css_urls : list string
}.

Definition CACHE_ENDPOINT_NAME : string := "components_cached_script".

(** [json.dumps] of a list of strings that need no escaping (base64 text) *)
Definition json_list (l : list string) : string :=
  "[" +:+ join ", " (map (λ s, dq +:+ s +:+ dq) l) +:+ "]".

(** [for part in all_parts: ...] of [_process_dep_declarations] *)
Fixpoint collect_comp_hashes (all_parts : list string)
    (seen_comp_hashes : gset string) (comp_hashes : list string)
    : result (list string) :=
  match all_parts with
  | [] => Ok comp_hashes
  | part :: all_parts' =>
      match SCRIPT_NAME_REGEX part with
      | None => Raise (RuntimeError "Malformed dependencies data")
      | Some (comp_cls_hash, _) =>
          if bool_decide (comp_cls_hash ∈ seen_comp_hashes)
          then collect_comp_hashes all_parts' seen_comp_hashes comp_hashes
          else collect_comp_hashes all_parts'
                 ({[comp_cls_hash]} ∪ seen_comp_hashes)
                 (comp_hashes ++ [comp_cls_hash])
      end
  end.

(** [d[key]] on a dict *)
Definition getitem {V} (d : gmap string V) (key : string) : result V :=
  match d !! key with
  | Some v => Ok v
  | None => Raise (KeyError key)
  end.

Section Aggregation.
Context `{Externals}.

Definition get_script_content (script_type : string) (comp_cls : CompCls)
    (w : World) : option string :=
  let comp_cls_hash := _hash_comp_cls comp_cls in
  let cache_key := _gen_cache_key comp_cls_hash script_type in
  InMemoryComponentMediaCache.get (comp_media_cache w) cache_key.

(** [sub in script] raises when [script] is [None]. *)
Definition in_script (sub : string) (script : option string) : result bool :=
  match script with
  | Some script => Ok (contains sub script)
  | None => Raise (TypeError "argument of type 'NoneType' is not iterable")
  end.

Definition _get_script_tag (script_type : string) (comp_cls : CompCls)
    (w : World) : result string :=
  let script := get_script_content script_type comp_cls w in
  if bool_decide (script_type = "js") then
    bad ← in_script "</script" script;
    if bad : bool then
      Raise (RuntimeError
        ("Content of `Component.js` for component '" +:+ __name__ comp_cls
         +:+ "' contains '</script>' end tag. "
         +:+ "This is not allowed, as it would break the HTML."))
    else Ok ("<script>" +:+ default "" script +:+ "</script>")
  else if bool_decide (script_type = "css") then
    bad ← in_script "</style" script;
    if bad : bool then
      Raise (RuntimeError
        ("Content of `Component.css` for component '" +:+ __name__ comp_cls
         +:+ "' contains '</style>' end tag. "
         +:+ "This is not allowed, as it would break the HTML."))
    else Ok ("<style>" +:+ default "" script +:+ "</style>")
  else
    (* [return script]; a [None] here is refused by the caller's join *)
    match script with
    | Some script => Ok script
    | None =>
        Raise (TypeError "sequence item 0: expected str instance, NoneType found")
    end.

Definition get_script_url (script_type : string) (comp_cls : CompCls)
    : string :=
  let comp_cls_hash := _hash_comp_cls comp_cls in
  reverse comp_cls_hash script_type.

(** The body of the loop of [_prepare_tags_and_urls]. *)
Definition prepare_one (type : string) (w : World) (acc : TagsAndUrls)
    (comp_cls_hash : string) : result TagsAndUrls :=
  comp_cls ← getitem (comp_hash_mapping w) comp_cls_hash;
  if bool_decide (type = "document") then
    acc ←
      (if _is_nonempty_str (js comp_cls) then
         tag ← _get_script_tag "js" comp_cls w;
         Ok (MkTagsAndUrls
               (to_load_js_urls acc) (to_load_css_urls acc)
               (inlined_js_tags acc ++ [tag]) (inlined_css_tags acc)
               (loaded_js_urls acc ++ [get_script_url "js" comp_cls])
               (loaded_css_urls acc))
       else Ok acc);
    if _is_nonempty_str (css comp_cls) then
      tag ← _get_script_tag "css" comp_cls w;
      Ok (MkTagsAndUrls
            (to_load_js_urls acc) (to_load_css_urls acc)
            (inlined_js_tags acc) (inlined_css_tags acc ++ [tag])
            (loaded_js_urls acc)
            (loaded_css_urls acc ++ [get_script_url "css" comp_cls]))
    else Ok acc
  else
    let acc :=
      if _is_nonempty_str (js comp_cls) then
        MkTagsAndUrls
          (to_load_js_urls acc ++ [get_script_url "js" comp_cls])
          (to_load_css_urls acc)
          (inlined_js_tags acc) (inlined_css_tags acc)
          (loaded_js_urls acc) (loaded_css_urls acc)
      else acc in
    if _is_nonempty_str (css comp_cls) then
      Ok (MkTagsAndUrls
            (to_load_js_urls acc)
            (to_load_css_urls acc ++ [get_script_url "css" comp_cls])
            (inlined_js_tags acc) (inlined_css_tags acc)
            (loaded_js_urls acc) (loaded_css_urls acc))
    else Ok acc.

Fixpoint prepare_loop (type : string) (w : World) (acc : TagsAndUrls)
    (data : list string) : result TagsAndUrls :=
  match data with
  | [] => Ok acc
  | comp_cls_hash :: data' =>
      acc ← prepare_one type w acc comp_cls_hash;
      prepare_loop type w acc data'
  end.

Definition _prepare_tags_and_urls (data : list string) (type : string)
    (w : World) : result TagsAndUrls :=
  prepare_loop type w (MkTagsAndUrls [] [] [] [] [] []) data.

(** The loop of [_postprocess_media_tags]: the URLs in first-seen order
    and the first tag seen for each. *)
Fixpoint postprocess_loop (script_type : string) (tags : list string)
    (urls : list string) (tags_by_url : gmap string string)
    : result (list string * gmap string string) :=
  match tags with
  | [] => Ok (urls, tags_by_url)
  | tag :: tags' =>
      match from_fragment (strip tag) with
      | [] => Raise (new_exn "IndexError" "list index out of range")
      | node :: _ =>
          let attr :=
            if bool_decide (script_type = "js") then "src" else "href" in
          let maybe_url := get_attr attr node in
          if negb (_is_nonempty_str maybe_url) then
            Raise (RuntimeError
              ("One of entries for `Component.Media." +:+ script_type
               +:+ "` media is missing a value for attribute '" +:+ attr
               +:+ "'. If there is content inlined inside the `<"
               +:+ node_name node +:+ ">` tags, you must move the content to a `."
               +:+ script_type +:+ "` file and reference it via '" +:+ attr
               +:+ "'." +:+ nl +:+ "Got:" +:+ nl +:+ tag))
          else
            let url := default "" maybe_url in
            if bool_decide (is_Some (tags_by_url !! url))
            then postprocess_loop script_type tags' urls tags_by_url
            else postprocess_loop script_type tags' (urls ++ [url])
                   (<[url := tag]> tags_by_url)
      end
  end.

Definition _postprocess_media_tags (script_type : string)
    (tags : list string) : result (list string * list string) :=
  '(urls, tags_by_url) ← postprocess_loop script_type tags [] ∅;
  tags ← mapM (getitem tags_by_url) urls;
  Ok (tags, urls).

Definition _gen_exec_script (to_load_js_tags to_load_css_tags
    loaded_js_urls loaded_css_urls : list string) : option string :=
  match to_load_js_tags, to_load_css_tags, loaded_css_urls, loaded_js_urls with
  | [], [], [], [] => None
  | _, _, _, _ =>
      let map_to_base64 := map b64encode in
      let exec_script :=
        "{" +:+ dq +:+ "loadedCssUrls" +:+ dq +:+ ": "
          +:+ json_list (map_to_base64 loaded_css_urls)
        +:+ ", " +:+ dq +:+ "loadedJsUrls" +:+ dq +:+ ": "
          +:+ json_list (map_to_base64 loaded_js_urls)
        +:+ ", " +:+ dq +:+ "toLoadCssTags" +:+ dq +:+ ": "
          +:+ json_list (map_to_base64 to_load_css_tags)
        +:+ ", " +:+ dq +:+ "toLoadJsTags" +:+ dq +:+ ": "
          +:+ json_list (map_to_base64 to_load_js_tags)
        +:+ "}" in
      Some ("<script type=" +:+ dq +:+ "application/json" +:+ dq
            +:+ " data-djc>" +:+ exec_script +:+ "</script>")
  end.
End Aggregation.

Section RenderDependencies.
Context `{Externals}.

Definition _process_dep_declarations (content type : string) (w : World)
    : result (string * string * string) :=
  let '(all_parts, content) :=
    regex_sub COMPONENT_COMMENT_REGEX (λ _, "") 0 content in
  comp_hashes ← collect_comp_hashes all_parts ∅ [];
  prepared ← _prepare_tags_and_urls comp_hashes type w;
  let get_component_media (comp_cls_hash : string) : result Media :=
    comp_cls ← getitem (comp_hash_mapping w) comp_cls_hash;
    Ok (media comp_cls) in
  component_medias ← mapM get_component_media comp_hashes;
  let all_medias :=
    component_medias ++
    [MkMedia (to_load_js_urls prepared)
             [("all", to_load_css_urls prepared)]] in
  let to_load_css_tags := all_medias ≫= render_css in
  let to_load_js_tags := all_medias ≫= render_js in
  '(to_load_css_tags, to_load_css_urls) ←
    _postprocess_media_tags "css" to_load_css_tags;
  '(to_load_js_tags, to_load_js_urls) ←
    _postprocess_media_tags "js" to_load_js_tags;
  let is_document := bool_decide (type = "document") in
  let is_fragment := bool_decide (type = "fragment") in
  let loaded_css_urls :=
    sorted (loaded_css_urls prepared
            ++ (if is_document then to_load_css_urls else [])) in
  let loaded_js_urls :=
    sorted (loaded_js_urls prepared
            ++ (if is_document then to_load_js_urls else [])) in
  let exec_script :=
    _gen_exec_script
      (if is_fragment then to_load_js_tags else [])
      (if is_fragment then to_load_css_tags else [])
      loaded_js_urls loaded_css_urls in
  let core_script_tags :=
    render_js
      (MkMedia
         (if is_document
          then [static "django_components/django_components.min.js"]
          else [])
         []) in
  let final_script_tags :=
    concat_str
      (core_script_tags
       ++ match exec_script with Some e => [e] | None => [] end
       ++ (if is_document then to_load_js_tags else [])
       ++ inlined_js_tags prepared) in
  let final_css_tags :=
    concat_str (inlined_css_tags prepared ++ to_load_css_tags) in
  Ok (content, final_script_tags, final_css_tags).

(** One of the two loops of [_insert_js_css_to_default_locations] on one
    top-level node: [find_tag] yields a reference to the section, and
    [append_children] extends it in place. *)
Definition insert_into (tag content : string) (elem : SoupNode)
    : SoupNode * bool :=
  if negb (is_element elem) then (elem, false)
  else
    match find_tag tag elem with
    | Some section => (append_children section (from_fragment content) elem, true)
    | None => (elem, false)
    end.

Definition insert_loop (tag : string) (content : option string)
    (elems : list SoupNode) : list SoupNode * bool :=
  match content with
  | None => (elems, false)
  | Some content =>
      let r := map (insert_into tag content) elems in
      (map fst r, existsb snd r)
  end.

Definition _insert_js_css_to_default_locations (html_content : string)
    (js_content css_content : option string) : option string :=
  let elems := from_fragment html_content in
  match elems with
  | [] => None
  | _ =>
      let '(elems, did_css) := insert_loop "head" css_content elems in
      let '(elems, did_js) := insert_loop "body" js_content elems in
      let did_modify_html := did_css || did_js in
      if did_modify_html then Some (to_html_multiroot elems) else None
  end.

(** [render_dependencies], under the name the source gives it for use
    where a keyword argument of the same name is in scope. *)
Definition _render_dependencies (content type : string) (w : World)
    : result string :=
  if negb (bool_decide (type = "document") || bool_decide (type = "fragment"))
  then Raise (ValueError ("Invalid type '" +:+ type +:+ "'"))
  else
    '(content_, js_dependencies, css_dependencies) ←
      _process_dep_declarations content type w;
    let is_document := bool_decide (type = "document") in
    let css_replacement := if is_document then css_dependencies else "" in
    let js_replacement := if is_document then js_dependencies else "" in
    let on_replace_match (is_css : bool) :=
      if is_css then css_replacement else js_replacement in
    let '(found, content_) :=
      regex_sub PLACEHOLDER_REGEX on_replace_match 0 content_ in
    let did_find_css_placeholder := existsb id found in
    let did_find_js_placeholder := existsb negb found in
    let content_ :=
      if is_document
         && (negb did_find_js_placeholder || negb did_find_css_placeholder)
      then
        let maybe_transformed :=
          _insert_js_css_to_default_locations content_
            (if did_find_js_placeholder then None else Some js_dependencies)
            (if did_find_css_placeholder then None else Some css_dependencies) in
        default content_ maybe_transformed
      else content_ in
    let content_ :=
      if bool_decide (type = "fragment")
      then content_ +:+ js_dependencies
      else content_ in
    Ok content_.

Definition postprocess_component_html (component_cls : CompCls)
    (component_id html_content type : string) (render_dependencies_ : bool)
    (w : World) : result string * World :=
  let '(output, w) :=
    _insert_component_comment html_content component_cls component_id w in
  if render_dependencies_
  then (_render_dependencies output type w, w)
  else (Ok output, w).

(** ** 4. The endpoint *)

Record HttpResponse := MkHttpResponse {
  status_code : nat;
  response_content : string;
  (** [None]: the framework's default *)
  content_type : option string
}.

Definition HttpResponseNotAllowed : HttpResponse := MkHttpResponse 405 "" None.
Definition HttpResponseNotFound : HttpResponse := MkHttpResponse 404 "" None.

Definition _get_content_types (script_type : string) : result string :=
  if bool_decide (script_type = "js") then Ok "text/javascript"
  else if bool_decide (script_type = "css") then Ok "text/css"
  else Raise (ValueError ("Unknown script_type '" +:+ script_type +:+ "'")).

Definition cached_script_view (method comp_cls_hash script_type : string)
    (w : World) : result HttpResponse :=
  if negb (bool_decide (method = "GET")) then Ok HttpResponseNotAllowed
  else
    let cache_key := _gen_cache_key comp_cls_hash script_type in
    let script :=
      InMemoryComponentMediaCache.get (comp_media_cache w) cache_key in
    match script with
    | None => Ok HttpResponseNotFound
    | Some script =>
        content_type ← _get_content_types script_type;
        Ok (MkHttpResponse 200 script (Some content_type))
    end.
End RenderDependencies.

(** * component.py *)

(** The arguments of [render] and [_render]; [None] is Python's [None],
    and a context is a dict or a [Context]. *)
Record RenderArgs := MkRenderArgs {
  arg_context : option (Kwargs + Context);
  arg_args : option (list pyval);
  arg_kwargs : option Kwargs;
  arg_slots : option (list (string * SlotContent));
  arg_escape_slots_content : bool;
  arg_type : string;
  arg_render_dependencies : bool;
  arg_request : bool
}.

(** What a render can change: the instance it runs on, and the
    process-wide state.  Both keep the changes made before an exception. *)
Record RState := MkRState {
  st_self : Component;
  st_world : World
}.

Definition M (A : Type) : Type := RState → result A * RState.

#[global] Instance M_ret : MRet M := λ A a st, (Ok a, st).
#[global] Instance M_bind : MBind M := λ A B k m st,
  match m st with
  | (Ok a, st') => k a st'
  | (Raise e, st') => (Raise e, st')
  end.

Definition raise {A} (e : exn) : M A := λ st, (Raise e, st).
Definition lift {A} (r : result A) : M A := λ st, (r, st).
Definition get_self : M Component := λ st, (Ok (st_self st), st).
Definition get_world : M World := λ st, (Ok (st_world st), st).
Definition put_world (w : World) : M unit :=
  λ st, (Ok (), MkRState (st_self st) w).
Definition set_render_stack (stack : list RenderStackItem) : M unit :=
  λ st,
    let self := st_self st in
    (Ok (), MkRState
              (MkComponent (component_cls self) (registered_name self)
                 (component_id self) (outer_context self) stack)
              (st_world st)).

(** [try: body except Exception as err: handler(err)] where the handler
    ends by raising. *)
Definition try_except {A} (body : M A) (handler : exn → exn) : M A :=
  λ st,
    match body st with
    | (Ok a, st') => (Ok a, st')
    | (Raise err, st') => (Raise (handler err), st')
    end.

(** [x or y] on strings *)
Definition str_or (x : option string) (y : string) : string :=
  match x with
  | Some s => if is_empty s then y else s
  | None => y
  end.

(** [Component.name] *)
Definition name (self : Component) : string :=
  str_or (registered_name self) (__name__ (component_cls self)).

(** The value of the property [Component.input]; the frame holds a
    [RenderInput], and a Python reference may also be [None]. *)
Inductive PyRef (A : Type) :=
| PyNoneRef
| PyObj (a : A).
Arguments PyNoneRef {A}.
Arguments PyObj {A} a.

Definition Component_input (self : Component) : result (PyRef RenderInput) :=
  match last (_render_stack self) with
  | None =>
      Raise (RuntimeError
        (name self +:+
         ": Tried to access Component input while outside of rendering execution"))
  | Some item => Ok (PyObj (input item))
  end.

Definition Component_is_filled (self : Component)
    : result (list (string * bool)) :=
  match last (_render_stack self) with
  | None =>
      Raise (RuntimeError
        (name self +:+ ": Tried to access Component's `is_filled` attribute "
         +:+ "while outside of rendering execution"))
  | Some ctx =>
      match is_filled ctx with
      | None =>
          Raise (RuntimeError
            (name self +:+ ": Tried to access Component's `is_filled` attribute "
             +:+ "before slots were resolved"))
      | Some f => Ok f
      end
  end.

Section ComponentMethods.
Context `{Externals}.

Definition _get_template (cls : CompCls) (context : Context)
    : result Template :=
  (* Resolve template name *)
  template_name_ ←
    match template_name cls with
    | Some n =>
        from_getter ← get_template_name cls context;
        match from_getter with
        | Some _ =>
            Raise (ImproperlyConfigured
              ("Received non-null value from both 'template_name' and 'get_template_name' in"
               +:+ " Component " +:+ __name__ cls
               +:+ ". Only one of the two must be set."))
        | None => Ok (Some n)
        end
    | None => get_template_name cls context
    end;
  (* Resolve template str *)
  template_input ←
    match template cls with
    | Some t =>
        from_getter ← get_template cls context;
        match from_getter with
        | Some _ =>
            Raise (ImproperlyConfigured
              ("Received non-null value from both 'template' and 'get_template' in"
               +:+ " Component " +:+ __name__ cls
               +:+ ". Only one of the two must be set."))
        | None => Ok (Some t)
        end
    | None =>
        let template_getter :=
          default (get_template cls) (get_template_string cls) in
        template_getter context
    end;
  match template_name_, template_input with
  | Some _, Some _ =>
      Raise (ImproperlyConfigured
        ("Received both 'template_name' and 'template' in Component "
         +:+ __name__ cls +:+ "." +:+ " Only one of the two must be set."))
  | Some n, None => loader_get_template n
  | None, Some (TemplateStr s) => cached_template s
  | None, Some (TemplateObj t) => Ok t
  | None, None =>
      Raise (ImproperlyConfigured
        ("Either 'template_name' or 'template' must be set for Component "
         +:+ __name__ cls +:+ "."))
  end.

Definition inject (self : Component) (key : string) (default_ : pyval)
    : result pyval :=
  i ← Component_input self;
  match i with
  | PyNoneRef =>
      Raise (RuntimeError
        ("Method 'inject()' of component '" +:+ name self
         +:+ "' was called outside of 'get_context_data()'"))
  | PyObj _ =>
      i ← Component_input self;
      match i with
      | PyNoneRef =>
          Raise (new_exn "AttributeError"
                   "'NoneType' object has no attribute 'context'")
      | PyObj i =>
          get_injected_context_var (name self) (context i) key default_
      end
  end.

Definition _normalize_slot_fills (fills : list (string * SlotContent))
    (escape_content : bool) : list (string * Slot) :=
  let esc (s : string) := if escape_content then conditional_escape s else s in
  omap (λ '(slot_name, content),
          match content with
          | SlotNone => None
          | SlotText s => Some (slot_name, MkSlot (λ _, esc s))
          | SlotFunc f => Some (slot_name, MkSlot (λ slot_data, esc (f slot_data)))
          end)
       fills.

(** Modelled from the spec: [SlotIsFilled] is not among the sources; it is
    the snapshot of "which slot names received a fill, independent of
    emptiness". *)
Definition SlotIsFilled (fills : list (string * Slot)) : list (string * bool) :=
  map (λ '(slot_name, _), (slot_name, true)) fills.

(** The exception [_render] re-raises for [err] in the component called
    [name]; the handler itself raises when [err.args] has no string to
    work on. *)
Definition annotate_error (name : string) (err : exn) : exn :=
  let components := default [] (exn_components err) in
  let orig_msg : result pyval :=
    match exn_args err with
    | [] => Raise (new_exn "IndexError" "tuple index out of range")
    | arg0 :: _ =>
        if bool_decide (components = []) then Ok arg0
        else
          match arg0 with
          | PStr s =>
              match split_once "010" s with
              | (_, Some rest) => Ok (PStr rest)
              | (_, None) =>
                  Raise (new_exn "IndexError" "list index out of range")
              end
          | PInt _ =>
              Raise (new_exn "AttributeError"
                       "'int' object has no attribute 'split'")
          | PNone =>
              Raise (new_exn "AttributeError"
                       "'NoneType' object has no attribute 'split'")
          end
    end in
  match orig_msg with
  | Raise e => e
  | Ok orig_msg =>
      let components := name :: components in
      let comp_path := join " > " components in
      let prefix :=
        "An error occured while rendering components " +:+ comp_path
        +:+ ":" +:+ nl in
      match orig_msg with
      | PStr orig_msg =>
          Exn (exn_class err) [PStr (prefix +:+ orig_msg)] (Some components)
      | PInt _ =>
          TypeError
            ("can only concatenate str (not " +:+ dq +:+ "int" +:+ dq
             +:+ ") to str")
      | PNone =>
          TypeError
            ("can only concatenate str (not " +:+ dq +:+ "NoneType" +:+ dq
             +:+ ") to str")
      end
  end.
End ComponentMethods.

Section Rendering.
Context `{Externals}.

(** The scope that [with context.update(...)] adds for its body; the
    context manager removes it again on every exit. *)
Definition context_update (scope : Scope) (context : Context) : Context :=
  MkContext (dicts context ++ [scope]) (render_context context)
    (has_request context) (is_extracting_fill context).

(** [context.render_context.push(...)] *)
Definition render_context_push (context : Context) : Context :=
  MkContext (dicts context) (S (render_context context))
    (has_request context) (is_extracting_fill context).

(** [with _prepare_template(component, context, context_data) as template] *)
Definition _prepare_template {A} (cls : CompCls) (context : Context)
    (context_data : Kwargs) (body : Context → Template → M A) : M A :=
  let context := context_update (DataScope context_data) context in
  template ← lift (_get_template cls context);
  match _dc_patched template with
  | None =>
      raise (new_exn "AttributeError"
               "'Template' object has no attribute '_dc_patched'")
  | Some false =>
      raise (RuntimeError
        ("Django-components received a Template instance which was not patched."
         +:+ "If you are using Django's Template class, check if you added django-components"
         +:+ "to INSTALLED_APPS. If you are using a custom template class, then you need to"
         +:+ "manually patch the class."))
  | Some true => body context template
  end.

(** [self._render_stack[-1].is_filled = is_filled] *)
Definition set_top_is_filled (f : list (string * bool))
    (stack : list RenderStackItem) : list RenderStackItem :=
  match last stack with
  | Some top => removelast stack ++ [MkRenderStackItem (input top) (Some f)]
  | None => stack
  end.

Definition _render_impl (render_template : Template → Context → M string)
    (cls : CompCls) (a : RenderArgs) : M string :=
  let type := arg_type a in
  let render_dependencies := arg_render_dependencies a in
  _ ← lift (_validate_inputs cls (default [] (arg_args a))
              (default [] (arg_kwargs a)) (default [] (arg_slots a)));
  let args := default [] (arg_args a) in
  let kwargs := default [] (arg_kwargs a) in
  let slots_untyped :=
    _normalize_slot_fills (default [] (arg_slots a))
      (arg_escape_slots_content a) in
  let slots := slots_untyped in
  let context :=
    match arg_context a with
    | None | Some (inl []) => MkContext [] 0 (arg_request a) false
    | Some (inl d) => MkContext [DataScope d] 0 (arg_request a) false
    | Some (inr c) => c
    end in
  let context := render_context_push context in
  self ← get_self;
  _ ← set_render_stack
        (_render_stack self
         ++ [MkRenderStackItem
               (MkRenderInput context args kwargs slots type render_dependencies)
               None]);
  context_data ← lift (get_context_data cls args kwargs);
  _ ← lift (_validate_outputs cls context_data);
  (* Process JS and CSS files *)
  w ← get_world;
  w ← lift (cache_inlined_js cls (str_or (js cls) "") w);
  _ ← put_world w;
  w ← lift (cache_inlined_css cls (str_or (css cls) "") w);
  _ ← put_world w;
  output ←
    _prepare_template cls context context_data (λ context template,
      let is_filled := SlotIsFilled slots_untyped in
      self ← get_self;
      _ ← set_render_stack (set_top_is_filled is_filled (_render_stack self));
      let context :=
        context_update
          (ComponentScope (name self) (tpl_name template) is_filled)
          context in
      _ ← lift (on_render_before cls context template);
      (* Get the component's HTML *)
      html_content ← render_template template context;
      (* Allow to optionally override/modify the rendered content *)
      new_output ← lift (on_render_after cls context template html_content);
      let html_content := default html_content new_output in
      w ← get_world;
      let '(output, w) :=
        postprocess_component_html cls (component_id self) html_content
          type render_dependencies w in
      _ ← put_world w;
      lift output);
  (* After rendering is done, remove the current state from the stack *)
  self ← get_self;
  _ ← set_render_stack (removelast (_render_stack self));
  mret output.

(** [Component._render] around a given [_render_impl] *)
Definition _render_around (render_template : Template → Context → M string)
    (cls : CompCls) (a : RenderArgs) : M string :=
  self ← get_self;
  try_except (_render_impl render_template cls a)
    (annotate_error (name self)).

(** Running a render on another instance: the instance in hand is put
    back afterwards, the process-wide state is shared. *)
Definition on_instance {A} (component : Component) (m : M A) : M A :=
  λ st,
    let '(r, st') := m (MkRState component (st_world st)) in
    (r, MkRState (st_self st) (st_world st')).

(** [ComponentNode.render] for a node whose class renders by
    [render_component].  [isolated_context] stands for the node's flag
    or the registry's [ISOLATED] setting. *)
Definition ComponentNode_render (render_component : RenderArgs → M string)
    (name : string) (cls : option CompCls) (args : list pyval)
    (kwargs : Kwargs) (fills : list (string * SlotContent))
    (node_id : option string) (isolated_context : bool)
    (context : Context) : M string :=
  if is_extracting_fill context then mret ""
  else
    match cls with
    | None =>
        raise (new_exn "NotRegistered"
                 ("The component '" +:+ name +:+ "' is not registered"))
    | Some component_cls =>
        let component :=
          MkComponent component_cls (Some name) (str_or node_id gen_id)
            context [] in
        let context :=
          if isolated_context then make_isolated_context_copy context
          else context in
        on_instance component
          (render_component
             (MkRenderArgs (Some (inr context)) (Some args) (Some kwargs)
                (Some fills) true "document" false false))
    end.

(** [NodeList.render]: the nodes render in order and their output is
    joined; a component node renders the class it refers to by
    [render_cls]. *)
Fixpoint render_nodelist (render_cls : CompCls → RenderArgs → M string)
    (context : Context) (nodes : list (Node CompCls)) : M string :=
  match nodes with
  | [] => mret ""
  | node :: nodes' =>
      bit ←
        match node with
        | TextNode s => mret s
        | ComponentNode name cls args kwargs fills node_id isolated =>
            ComponentNode_render
              (match cls with
               | Some c => render_cls c
               | None => λ _, mret ""
               end)
              name cls args kwargs fills node_id isolated context
        end;
      rest ← render_nodelist render_cls context nodes';
      mret (bit +:+ rest)
  end.

(** [Component._render] on an instance of [cls]: [template.render] is
    [NodeList.render] on the nodes of the class. *)
Fixpoint _render (cls : CompCls) (a : RenderArgs) {struct cls} : M string :=
  _render_around
    (λ _ context, render_nodelist _render context (nodelist cls))
    cls a.

(** [Component.render], called on a class (a new instance is made) or on
    an instance; the result, the instance afterwards, and the
    process-wide state. *)
Definition render (cls_or_self : CompCls + Component) (a : RenderArgs)
    (w : World) : result string * RState :=
  let comp :=
    match cls_or_self with
    | inl cls => MkComponent cls None gen_id (MkContext [] 0 false false) []
    | inr self => self
    end in
  _render (component_cls comp) a (MkRState comp w).

(** [Component.render_to_response]: [render] with [render_dependencies]
    set, wrapped in [response_class]. *)
Definition render_to_response (cls_or_self : CompCls + Component)
    (a : RenderArgs) (w : World) : result HttpResponse * RState :=
  let '(content, st) :=
    render cls_or_self
      (MkRenderArgs (arg_context a) (arg_args a) (arg_kwargs a)
         (arg_slots a) (arg_escape_slots_content a) (arg_type a) true
         (arg_request a)) w in
  (content ≫= λ c, Ok (MkHttpResponse 200 c None), st).
End Rendering.

(** * Reference collaborators

    A small HTML reader and writer and plain stand-ins for the other
    collaborators, for running the model on concrete documents. *)

Module Sample.

Definition is_name_char (a : ascii) : bool := is_word a || Ascii.eqb a "-".

Definition is_void (tag : string) : bool :=
  bool_decide (tag ∈ ["link"; "meta"; "br"; "img"; "input"; "hr"]).

Definition is_raw_text (tag : string) : bool :=
  bool_decide (tag ∈ ["script"; "style"]).

(** The text before the first occurrence of [stop], and the text from it. *)
Fixpoint until (stop : string) (s : string) : string * string :=
  if starts_with stop s then ("", s)
  else
    match s with
    | "" => ("", "")
    | String c s' => let '(a, b) := until stop s' in (String c a, b)
    end.

(** The attributes of an open tag, up to and including its [>]. *)
Fixpoint parse_attrs (fuel : nat) (s : string)
    : list (string * string) * string :=
  match fuel with
  | O => ([], s)
  | S fuel =>
      let s := lstrip s in
      match strip_prefix "/>" s, strip_prefix ">" s with
      | Some rest, _ | None, Some rest => ([], rest)
      | None, None =>
          let '(key, rest) := span is_name_char s in
          if is_empty key then ([], "")
          else
            match strip_prefix ("=" +:+ dq) rest with
            | Some rest =>
                let '(value, rest) := until dq rest in
                let '(attrs, rest) :=
                  parse_attrs fuel (default "" (strip_prefix dq rest)) in
                ((key, value) :: attrs, rest)
            | None =>
                let '(attrs, rest) := parse_attrs fuel rest in
                ((key, "") :: attrs, rest)
            end
      end
  end.

(** The nodes up to the closing tag of the enclosing element (or the end
    of the text), and the text after that closing tag. *)
Fixpoint parse_nodes (fuel : nat) (s : string) : list SoupNode * string :=
  match fuel with
  | O => ([], "")
  | S fuel =>
      if is_empty s then ([], "")
      else
        match strip_prefix "</" s with
        | Some rest =>
            let '(_, rest) := until ">" rest in
            ([], default "" (strip_prefix ">" rest))
        | None =>
            match strip_prefix "<" s with
            | Some rest =>
                let '(tag, rest) := span is_name_char rest in
                let '(attrs, rest) := parse_attrs fuel rest in
                let '(children, rest) :=
                  if is_void tag then ([], rest)
                  else if is_raw_text tag then
                    let '(text, rest) := until ("</" +:+ tag) rest in
                    let '(_, rest) := until ">" rest in
                    (if is_empty text then [] else [SoupText text],
                     default "" (strip_prefix ">" rest))
                  else parse_nodes fuel rest in
                let '(siblings, rest) := parse_nodes fuel rest in
                (SoupElem tag attrs children :: siblings, rest)
            | None =>
                let '(text, rest) := until "<" s in
                let '(siblings, rest) := parse_nodes fuel rest in
                (SoupText text :: siblings, rest)
            end
        end
  end.

Definition read_html (s : string) : list SoupNode :=
  fst (parse_nodes (S (String.length s)) s).

Definition attr_to_html (kv : string * string) : string :=
  " " +:+ fst kv +:+
  (if is_empty (snd kv) then "" else "=" +:+ dq +:+ snd kv +:+ dq).

Fixpoint to_html (n : SoupNode) : string :=
  match n with
  | SoupText s => s
  | SoupElem tag attrs children =>
      "<" +:+ tag +:+ concat_str (map attr_to_html attrs) +:+ ">"
      +:+ (if is_void tag then ""
           else concat_str (map to_html children) +:+ "</" +:+ tag +:+ ">")
  end.

Definition write_html (elems : list SoupNode) : string :=
  concat_str (map to_html elems).

Definition script_tags (m : Media) : list string :=
  map (λ path, "<script src=" +:+ dq +:+ path +:+ dq +:+ "></script>")
      (media_js m).

Definition link_tags (m : Media) : list string :=
  '(medium, paths) ← media_css m;
  map (λ path,
         "<link href=" +:+ dq +:+ path +:+ dq +:+ " media=" +:+ dq
         +:+ medium +:+ dq +:+ " rel=" +:+ dq +:+ "stylesheet" +:+ dq +:+ ">")
      paths.

Definition b64_alphabet : string :=
  "ABCDEFGHIJKLMNOPQRSTUVWXYZabcdefghijklmnopqrstuvwxyz0123456789+/".

Definition b64_char (n : N) : ascii :=
  default "="%char (String.get (N.to_nat (n mod 64)) b64_alphabet).

Fixpoint base64 (s : string) : string :=
  match s with
  | "" => ""
  | String a "" =>
      let n := (N_of_ascii a * 65536)%N in
      String (b64_char (n / 262144)) (String (b64_char (n / 4096)) "==")
  | String a (String b "") =>
      let n := (N_of_ascii a * 65536 + N_of_ascii b * 256)%N in
      String (b64_char (n / 262144))
        (String (b64_char (n / 4096)) (String (b64_char (n / 64)) "="))
  | String a (String b (String c s')) =>
      let n := (N_of_ascii a * 65536 + N_of_ascii b * 256 + N_of_ascii c)%N in
      String (b64_char (n / 262144))
        (String (b64_char (n / 4096))
           (String (b64_char (n / 64)) (String (b64_char n) (base64 s'))))
  end.

(** The digest is a stand-in: the same for every class. *)
#[local] Instance externals : Externals := {|
  md5_hexdigest := λ _, "d41d8cd98f00b204e9800998ecf8427e";
  gen_id := "a1bc3f";
  loader_get_template := λ n, Ok (MkTemplate (Some n) (Some true));
  cached_template := λ _, Ok (MkTemplate None (Some true));
  reverse := λ comp_cls_hash script_type,
    "/cache/" +:+ comp_cls_hash +:+ "." +:+ script_type;
  static := λ path, "/static/" +:+ path;
  render_js := script_tags;
  render_css := link_tags;
  from_fragment := read_html;
  to_html_multiroot := write_html;
  b64encode := base64;
  get_injected_context_var := λ _ _ _ default_, Ok default_;
  conditional_escape := λ s, s;
  make_isolated_context_copy := λ c,
    MkContext [] (render_context c) (has_request c) (is_extracting_fill c)
|}.

(** A class with the defaults of [Component], an inline template whose
    nodes are [nodes], and the given assets and context hook. *)
Definition component (name : string) (js css : option string)
    (get_context_data : list pyval → Kwargs → result Kwargs)
    (nodes : list (Node CompCls)) : CompCls :=
  {| __name__ := name;
     import_path := "app.components." +:+ name;
     js := js;
     css := css;
     media := MkMedia [] [];
     template_name := None;
     get_template_name := λ _, Ok None;
     template := Some (TemplateStr "");
     get_template := λ _, Ok None;
     get_template_string := None;
     _validate_inputs := λ _ _ _, Ok ();
     get_context_data := get_context_data;
     _validate_outputs := λ _, Ok ();
     on_render_before := λ _ _, Ok ();
     on_render_after := λ _ _ _, Ok None;
     nodelist := nodes |}.

Definition empty_world : World := MkWorld ∅ ∅.

(** [render()] with every argument left at its default. *)
Definition default_args : RenderArgs :=
  MkRenderArgs None None None None true "document" true false.

(** [render(render_dependencies=False)] *)
Definition nested_args : RenderArgs :=
  MkRenderArgs None None None None true "document" false false.

Definition fragment_args : RenderArgs :=
  MkRenderArgs None None None None true "fragment" true false.
End Sample.

(** * Example components *)

Module Examples.
Import Sample.

(** A component that declares inlined CSS and no JS. *)
Definition styled_card : CompCls :=
  component "Card" None (Some "body{color:red}") (λ _ _, Ok [])
    [TextNode "<p>hi</p>"].

(** A component that declares JS. *)
Definition scripted_card : CompCls :=
  component "Card" (Some "console.log(1)") None (λ _ _, Ok [])
    [TextNode "<p>hi</p>"].

(** A component that declares both. *)
Definition full_card : CompCls :=
  component "Card" (Some "console.log(1)") (Some "body{color:red}")
    (λ _ _, Ok []) [TextNode "<p>hi</p>"].

(** [Outer] renders [Inner], whose [get_context_data] raises [err]. *)
Definition inner (err : exn) : CompCls :=
  component "Inner" None None (λ _ _, Raise err) [TextNode "<p>hi</p>"].

Definition outer (err : exn) : CompCls :=
  component "Outer" None None (λ _ _, Ok [])
    [TextNode "<div>";
     ComponentNode "Inner" (Some (inner err)) [] [] [] (Some "c1") false;
     TextNode "</div>"].

(** A class whose only template source is the legacy
    [get_template_string]. *)
Definition legacy_template_cls : CompCls :=
  {| __name__ := "Legacy";
     import_path := "app.components.Legacy";
     js := None;
     css := None;
     media := MkMedia [] [];
     template_name := None;
     get_template_name := λ _, Ok None;
     template := None;
     get_template := λ _, Ok None;
     get_template_string := Some (λ _, Ok (Some (TemplateStr "<p>hi</p>")));
     _validate_inputs := λ _ _ _, Ok ();
     get_context_data := λ _ _, Ok [];
     _validate_outputs := λ _, Ok ();
     on_render_before := λ _ _, Ok ();
     on_render_after := λ _ _ _, Ok None;
     nodelist := [TextNode "<p>hi</p>"] |}.

(** A component with both assets whose template is a whole page. *)
Definition page_card : CompCls :=
  component "Card" (Some "console.log(1)") (Some "body{color:red}")
    (λ _ _, Ok []) [TextNode "<html><head></head><body><p>hi</p></body></html>"].

(** A class whose name has a dot, as [type("My.Card", ...)] makes one. *)
Definition dotted_card : CompCls :=
  component "My.Card" (Some "console.log(1)") None (λ _ _, Ok [])
    [TextNode "<p>hi</p>"].

Definition empty_context : Context := MkContext [] 0 false false.

(** An instance of [cls] that is not rendering. *)
Definition idle (cls : CompCls) : Component :=
  MkComponent cls None "a1bc3f" empty_context [].
End Examples.

(** * The vocabulary of the statements *)

Section Vocabulary.
Context `{Externals}.

(** How many of the four sources yield a value. *)
Definition yields {A} (source : option A) : nat :=
  match source with Some _ => 1 | None => 0 end.

Definition sources_set (template_name get_template_name : option string)
    (template get_template : option TemplateInput) : nat :=
  yields template_name + yields get_template_name
  + yields template + yields get_template.

(** The template a single source resolves to. *)
Definition resolve_single (name : option string)
    (inline : option TemplateInput) : result Template :=
  match name, inline with
  | Some n, _ => loader_get_template n
  | None, Some (TemplateStr s) => cached_template s
  | None, Some (TemplateObj t) => Ok t
  | None, None => Ok (MkTemplate None None)
  end.

(** A computation that leaves the instance it runs on as it found it. *)
Definition keeps_self {A} (m : M A) : Prop :=
  ∀ st, st_self (m st).2 = st_self st.

(** The prefix [_render] puts before the message, for the path [names]. *)
Definition breadcrumb (names : list string) : string :=
  "An error occured while rendering components " +:+ join " > " names
  +:+ ":" +:+ nl.

Definition no_newline (s : string) : Prop :=
  all_chars (λ c, negb (Ascii.eqb c "010")) s = true.

(** [s[n:]] *)
Fixpoint drop_str (n : nat) (s : string) : string :=
  match n, s with
  | O, _ => s
  | S n', String _ s' => drop_str n' s'
  | S _, "" => ""
  end.

(** The elements of a list in the order of their first appearance. *)
Fixpoint first_seen (l : list string) : list string :=
  match l with
  | [] => []
  | x :: l' => x :: filter (λ y, y ≠ x) (first_seen l')
  end.

(** The scenario of the specification: A, B and C, then B twice more. *)
Definition abc_document : string :=
  COMPONENT_DEPS_COMMENT "A_0a1b2c,c1" +:+ "<main>"
  +:+ COMPONENT_DEPS_COMMENT "B_3d4e5f,c2" +:+ "<p>b</p>"
  +:+ COMPONENT_DEPS_COMMENT "C_6a7b8c,c3" +:+ "<p>c</p>"
  +:+ COMPONENT_DEPS_COMMENT "B_3d4e5f,c4" +:+ "<p>b</p>"
  +:+ COMPONENT_DEPS_COMMENT "B_3d4e5f,c5" +:+ "<p>b</p>" +:+ "</main>".

Definition MANIFEST_OPEN : string :=
  "<script type=" +:+ dq +:+ "application/json" +:+ dq +:+ " data-djc>".

(** The inlined asset of a kind that a class declares. *)
Definition declared (script_type : string) (cls : CompCls) : option string :=
  if bool_decide (script_type = "js") then js cls else css cls.

(** The literal block for an inlined asset. *)
Definition literal_block (script_type content : string) : string :=
  if bool_decide (script_type = "js")
  then "<script>" +:+ content +:+ "</script>"
  else "<style>" +:+ content +:+ "</style>".

(** The endpoint URLs of the inlined assets of a kind, for the classes of
    [hashes] that declare one. *)
Definition asset_urls (script_type : string) (w : World)
    (hashes : list string) : list string :=
  omap (λ h,
          cls ← comp_hash_mapping w !! h;
          if _is_nonempty_str (declared script_type cls)
          then Some (get_script_url script_type cls) else None)
       hashes.

(** Their literal blocks, with the content the cache holds. *)
Definition asset_blocks (script_type : string) (w : World)
    (hashes : list string) : list string :=
  omap (λ h,
          cls ← comp_hash_mapping w !! h;
          if _is_nonempty_str (declared script_type cls)
          then literal_block script_type
                 <$> get_script_content script_type cls w
          else None)
       hashes.

(** A class without external media files. *)
Definition no_media_files (cls : CompCls) : Prop :=
  media_js (media cls) = [] ∧ Forall (λ mp, mp.2 = []) (media_css (media cls)).

(** What a class declares is in the cache, and can be put in a block. *)
Definition cached (script_type close : string) (w : World) (cls : CompCls)
    : Prop :=
  _is_nonempty_str (declared script_type cls) = true →
  ∃ content,
    get_script_content script_type cls w = Some content
    ∧ contains close content = false.

(** The hash is registered, for a class whose assets are all inlined. *)
Definition all_inlined (w : World) (h : string) : Prop :=
  ∃ cls, comp_hash_mapping w !! h = Some cls ∧ no_media_files cls.

Definition all_cached (w : World) (h : string) : Prop :=
  ∀ cls, comp_hash_mapping w !! h = Some cls →
         cached "js" "</script" w cls ∧ cached "css" "</style" w cls.

(** [Media] renders no tag where it has no path. *)
Definition renders_paths_only : Prop :=
  (∀ m, media_js m = [] → render_js m = [])
  ∧ (∀ m, Forall (λ mp, mp.2 = []) (media_css m) → render_css m = []).

(** The manifest block, when there is one. *)
Definition manifest (to_load_js_tags to_load_css_tags loaded_js_urls
    loaded_css_urls : list string) `{Externals} : string :=
  MANIFEST_OPEN
  +:+ "{" +:+ dq +:+ "loadedCssUrls" +:+ dq +:+ ": "
  +:+ json_list (map b64encode loaded_css_urls)
  +:+ ", " +:+ dq +:+ "loadedJsUrls" +:+ dq +:+ ": "
  +:+ json_list (map b64encode loaded_js_urls)
  +:+ ", " +:+ dq +:+ "toLoadCssTags" +:+ dq +:+ ": "
  +:+ json_list (map b64encode to_load_css_tags)
  +:+ ", " +:+ dq +:+ "toLoadJsTags" +:+ dq +:+ ": "
  +:+ json_list (map b64encode to_load_js_tags)
  +:+ "}" +:+ "</script>".

(** The node has a section with the tag: itself or a descendant. *)
Definition has_section (tag : string) (n : SoupNode) : Prop :=
  is_Some (find_tag tag n).

(** The node with [new] put at the end of its first section with the tag,
    when it has one. *)
Definition at_end_of (tag : string) (new : list SoupNode) (n : SoupNode)
    : SoupNode :=
  match find_tag tag n with
  | Some section => append_children section new n
  | None => n
  end.

(** The substitution at the placeholders, for a document. *)
Definition substituted (content_ js css : string) : string :=
  (regex_sub PLACEHOLDER_REGEX (λ is_css : bool, if is_css then css else js)
     0 content_).2.

(** A page with both placeholders, one with sections only, and a bare
    paragraph, each after the marker of a rendered [Card]. *)
Definition placeholders_page : string :=
  "<html><head>" +:+ CSS_DEPENDENCY_PLACEHOLDER
  +:+ "<title>t</title></head><body>" +:+ JS_DEPENDENCY_PLACEHOLDER
  +:+ COMPONENT_DEPS_COMMENT "Card_d41d8c,a1bc3f"
  +:+ "<p>hi</p></body></html>".

Definition sections_page : string :=
  COMPONENT_DEPS_COMMENT "Card_d41d8c,a1bc3f"
  +:+ "<html><head><title>t</title></head><body><p>hi</p></body></html>".

Definition bare_page : string :=
  COMPONENT_DEPS_COMMENT "Card_d41d8c,a1bc3f" +:+ "<p>hi</p>".

End Vocabulary.

(** * Further code of [dependencies.py] *)

(** ** 5. The middleware *)

(** What the middleware reads of a request: [htmx] is [None] when the
    request has no such attribute, else the truth value of the attribute. *)
Record HttpRequest := MkHttpRequest {
  htmx : option bool
}.

(** What the middleware reads and writes of a response: whether it is a
    [StreamingHttpResponse], its headers ([response.get(name, "...")] is the
    lookup of the header of that name), and its content. *)
Record Response := MkResponse {
  is_streaming : bool;
  headers : gmap string string;
  content : string
}.

Definition decide_render_type_htmx (request : HttpRequest) : result string :=
  match htmx request with
  | None =>
      Raise (new_exn "AssertionError" "The htmx middleware is not installed")
  | Some true => Ok "fragment"
  | Some false => Ok "document"
  end.

Section Middleware.
Context `{Externals}.

(** [ComponentDependencyMiddleware._process_response] *)
Definition _process_response (request : HttpRequest) (response : Response)
    (w : World) : result Response :=
  if negb (is_streaming response)
     && starts_with "text/html" (default "" (headers response !! "Content-Type"))
  then
    render_type ← decide_render_type_htmx request;
    content_ ← _render_dependencies (content response) render_type w;
    Ok (MkResponse (is_streaming response) (headers response) content_)
  else Ok response.

End Middleware.

(** * Further vocabulary *)

Section FurtherVocabulary.
Context `{Externals}.

(** The content type the endpoint gives to a kind of script. *)
Definition content_type_of (script_type : string) : string :=
  if bool_decide (script_type = "js") then "text/javascript" else "text/css".

(** The attribute [_postprocess_media_tags] reads of a tag of a kind. *)
Definition url_attr (script_type : string) : string :=
  if bool_decide (script_type = "js") then "src" else "href".

(** The URL of a tag: that attribute of the first node the tag parses to. *)
Definition url_of (script_type tag : string) : option string :=
  match from_fragment (strip tag) with
  | [] => None
  | node :: _ => get_attr (url_attr script_type) node
  end.

(** A tag [_postprocess_media_tags] accepts. *)
Definition has_url (script_type tag : string) : Prop :=
  _is_nonempty_str (url_of script_type tag) = true.

(** The URL of a tag as a string ([cast(str, maybe_url)]). *)
Definition tag_url (script_type tag : string) : string :=
  default "" (url_of script_type tag).

(** The first of the tags that has the URL. *)
Definition first_with_url (script_type : string) (tags : list string)
    (url : string) : option string :=
  find (λ tag, bool_decide (tag_url script_type tag = url)) tags.

(** For each URL of the tags, the first tag that has it. *)
Definition first_tags (script_type : string) (tags : list string)
    : gmap string string :=
  foldr (λ tag acc, <[tag_url script_type tag := tag]> acc) ∅ tags.

(** The hash is in the registry. *)
Definition registered (w : World) (comp_cls_hash : string) : Prop :=
  is_Some (comp_hash_mapping w !! comp_cls_hash).

(** What a node of a template contributes to the output: a text node its
    text, a component node the marker of its class and id and then the
    HTML of the component. *)
Definition marked_output (node : Node CompCls) (bit : string) : Prop :=
  match node with
  | TextNode s => bit = s
  | ComponentNode _ (Some c) _ _ _ node_id _ =>
      ∃ html,
        bit = COMPONENT_DEPS_COMMENT
                (_hash_comp_cls c +:+ "," +:+ str_or node_id gen_id) +:+ html
  | ComponentNode _ None _ _ _ _ _ => False
  end.

(** The class of a component node is registered. *)
Definition node_registered (w : World) (node : Node CompCls) : Prop :=
  match node with
  | ComponentNode _ (Some c) _ _ _ _ _ => registered w (_hash_comp_cls c)
  | _ => True
  end.

(** The process-wide state only grows: every cached script is kept as it
    is, and every registered hash stays registered. *)
Definition world_le (w w' : World) : Prop :=
  comp_media_cache w ⊆ comp_media_cache w'
  ∧ dom (comp_hash_mapping w) ⊆ dom (comp_hash_mapping w').

(** A computation that only lets the process-wide state grow. *)
Definition grows {A} (m : M A) : Prop :=
  ∀ st, world_le (st_world st) (st_world (m st).2).
End FurtherVocabulary.

(** A template with a [Card] between two texts. *)
Definition main_with_card : list (Node CompCls) :=
  [TextNode "<main>";
   ComponentNode "card" (Some Examples.full_card) [] [] [] (Some "c1") false;
   TextNode "</main>"].

(** A page with the CSS placeholder only, after the marker of a rendered
    [Card]. *)
Definition css_placeholder_page : string :=
  COMPONENT_DEPS_COMMENT "Card_d41d8c,a1bc3f"
  +:+ "<html><head>" +:+ CSS_DEPENDENCY_PLACEHOLDER
  +:+ "<title>t</title></head><body><p>hi</p></body></html>".

(** * Properties *)

(** ** Strings *)

Lemma append_cons c s t : String c s +:+ t = String c (s +:+ t).
Proof. reflexivity. Qed.

Lemma append_nil_r s : s +:+ "" = s.
Proof. induction s as [|c s IH]; simpl; [done | by rewrite IH]. Qed.

Lemma append_assoc s t u : (s +:+ t) +:+ u = s +:+ (t +:+ u).
Proof. induction s as [|c s IH]; simpl; [done | by rewrite IH]. Qed.

Lemma length_append s t :
  String.length (s +:+ t) = String.length s + String.length t.
Proof. induction s as [|c s IH]; simpl; [done | by rewrite IH]. Qed.

Lemma strip_prefix_app p s : strip_prefix p (p +:+ s) = Some s.
Proof.
  induction p as [|a p IH]; simpl; [by destruct s |].
  by rewrite Ascii.eqb_refl.
Qed.

Lemma strip_prefix_Some p s r : strip_prefix p s = Some r → s = p +:+ r.
Proof.
  revert s; induction p as [|a p IH]; intros s; simpl.
  - destruct s; congruence.
  - destruct s as [|b s]; [done |].
    destruct (Ascii.eqb_spec a b) as [->|]; [|done].
    intros Hs. by rewrite (IH _ Hs).
Qed.

(** ** The cache of inlined assets *)

Section CacheFacts.
Context `{Externals}.

Lemma cache_script_js cls script w :
  _cache_script cls script "js" w =
  Ok (set_cache w (<[_gen_cache_key (_hash_comp_cls cls) "js" := strip script]>
                     (comp_media_cache w))).
Proof. reflexivity. Qed.

Lemma cache_script_css cls script w :
  _cache_script cls script "css" w =
  Ok (set_cache w (<[_gen_cache_key (_hash_comp_cls cls) "css" := strip script]>
                     (comp_media_cache w))).
Proof. reflexivity. Qed.

Lemma is_script_in_cache_set cls script_type v w :
  _is_script_in_cache cls script_type
    (set_cache w (<[_gen_cache_key (_hash_comp_cls cls) script_type := v]>
                    (comp_media_cache w))) = true.
Proof.
  unfold _is_script_in_cache, InMemoryComponentMediaCache.has; simpl.
  apply bool_decide_eq_true. rewrite lookup_insert_eq. by eexists.
Qed.

Lemma cache_inlined_js_eq cls content w :
  let key := _gen_cache_key (_hash_comp_cls cls) "js" in
  cache_inlined_js cls content w =
  Ok (if _is_nonempty_str (js cls)
         && negb (bool_decide (is_Some (comp_media_cache w !! key)))
      then set_cache w (<[key := strip content]> (comp_media_cache w))
      else w).
Proof.
  intros key. unfold cache_inlined_js, _is_script_in_cache,
    InMemoryComponentMediaCache.has. fold key.
  destruct (_is_nonempty_str (js cls)); simpl; [|done].
  by destruct (bool_decide _).
Qed.

Lemma cache_inlined_css_eq cls content w :
  let key := _gen_cache_key (_hash_comp_cls cls) "css" in
  cache_inlined_css cls content w =
  Ok (if _is_nonempty_str (js cls)
         && negb (bool_decide (is_Some (comp_media_cache w !! key)))
      then set_cache w (<[key := strip content]> (comp_media_cache w))
      else w).
Proof.
  intros key. unfold cache_inlined_css, _is_script_in_cache,
    InMemoryComponentMediaCache.has. fold key.
  destruct (_is_nonempty_str (js cls)); simpl; [|done].
  by destruct (bool_decide _).
Qed.

(** The guard of [cache_inlined_css] reads the class's [js]: a class
    without inlined JS never gets its CSS cached. *)
Lemma cache_inlined_css_guarded_by_js cls content w :
  _is_nonempty_str (js cls) = false → cache_inlined_css cls content w = Ok w.
Proof. intros Hjs. unfold cache_inlined_css. by rewrite Hjs. Qed.
End CacheFacts.



(** ** The serving endpoint *)

(** When a class declares both JS and CSS, its CSS is served once it has
    been rendered. *)
Example full_card_css_served :
  ∃ html st,
    render (H := Sample.externals) (inl Examples.full_card) Sample.nested_args
      Sample.empty_world = (Ok html, st)
    ∧ cached_script_view "GET" "Card_d41d8c" "css" (st_world st)
      = Ok (MkHttpResponse 200 "body{color:red}" (Some "text/css")).
Proof. do 2 eexists. split; reflexivity. Qed.

(** C1 (failing input): a class that declares inlined CSS and no JS.
    Before any render, [GET /cache/Card_d41d8c.css] is answered 404.  A
    render that leaves the dependencies to its caller completes, and the
    same request is still answered 404, because the cache is still empty;
    a render with the default arguments does not complete at all: it raises
    [TypeError] when the missing entry is read back. *)
Theorem styled_card_css_not_served :
  let E := Sample.externals in
  _hash_comp_cls Examples.styled_card = "Card_d41d8c"
  ∧ cached_script_view "GET" "Card_d41d8c" "css" Sample.empty_world
    = Ok HttpResponseNotFound
  ∧ (∃ html st,
       render (inl Examples.styled_card) Sample.nested_args Sample.empty_world
       = (Ok html, st)
       ∧ comp_media_cache (st_world st) = ∅
       ∧ cached_script_view "GET" "Card_d41d8c" "css" (st_world st)
         = Ok HttpResponseNotFound)
  ∧ (∃ err st,
       render (inl Examples.styled_card) Sample.default_args Sample.empty_world
       = (Raise err, st)
       ∧ exn_class err = "TypeError"
       ∧ cached_script_view "GET" "Card_d41d8c" "css" (st_world st)
         = Ok HttpResponseNotFound).
Proof.
  intros E. split; [reflexivity |]. split; [reflexivity |]. split.
  - do 2 eexists. split; [reflexivity |]. split; reflexivity.
  - do 2 eexists. split; [reflexivity |]. split; reflexivity.
Qed.

(** ** Accessors outside a render *)

(** C10: on an instance whose render stack is empty, [inject] raises the
    [RuntimeError] of the [input] property; [input] never yields [None],
    so the branch of [inject] for that case is never taken: whenever
    [input] yields a frame's input, [inject] is the lookup in its context. *)
Theorem inject_outside_render `{Externals} (self : Component)
    (key : string) (default_ : pyval) :
  (_render_stack self = [] →
   inject self key default_ =
   Raise (RuntimeError
     (name self +:+
      ": Tried to access Component input while outside of rendering execution")))
  ∧ Component_input self ≠ Ok PyNoneRef
  ∧ (∀ i, Component_input self = Ok (PyObj i) →
          inject self key default_ =
          get_injected_context_var (name self) (context i) key default_).
Proof.
  unfold inject, Component_input. split; [| split].
  - intros ->. reflexivity.
  - destruct (last (_render_stack self)); discriminate.
  - intros i. destruct (last (_render_stack self)); [|discriminate].
    intros [= <-]. reflexivity.
Qed.

Lemma inject_outside_render_witness :
  _render_stack (Examples.idle Examples.styled_card) = []
  ∧ inject (H := Sample.externals) (Examples.idle Examples.styled_card)
      "provider" PNone
    = Raise (RuntimeError
        "Card: Tried to access Component input while outside of rendering execution").
Proof.
  split; [reflexivity |].
  apply (inject_outside_render (H := Sample.externals)
           (Examples.idle Examples.styled_card) "provider" PNone).
  reflexivity.
Defined.

(** ** Template resolution *)

(** C6 (as stated, refuted): a class none of whose four sources yields a
    value, but which defines the legacy [get_template_string], resolves its
    template without an error. *)
Lemma legacy_source_resolves :
  sources_set (template_name Examples.legacy_template_cls) None
    (template Examples.legacy_template_cls) None = 0
  ∧ get_template_name Examples.legacy_template_cls Examples.empty_context
    = Ok None
  ∧ get_template Examples.legacy_template_cls Examples.empty_context = Ok None
  ∧ _get_template (H := Sample.externals) Examples.legacy_template_cls
      Examples.empty_context
    = Ok (MkTemplate None (Some true)).
Proof. repeat split. Qed.

(** C6 (amended): for a class that does not define the legacy
    [get_template_string], and whose two provider methods return: when
    none or more than one of the four sources yields a value, resolution
    raises [ImproperlyConfigured]; when exactly one does, the template is
    the one that source names.  The named sources are looked at first: a
    conflict between them is the error raised whatever the inline sources
    are, and an exception of [get_template_name] is raised before
    [get_template] is asked. *)
Theorem template_resolution `{Externals} (cls : CompCls) (ctx : Context) :
  (∀ gtn gt,
     get_template_string cls = None →
     get_template_name cls ctx = Ok gtn →
     get_template cls ctx = Ok gt →
     let n := sources_set (template_name cls) gtn (template cls) gt in
     (n ≠ 1 → ∃ msg, _get_template cls ctx = Raise (ImproperlyConfigured msg))
     ∧ (n = 1 →
        _get_template cls ctx =
        resolve_single
          (match template_name cls with Some x => Some x | None => gtn end)
          (match template cls with Some x => Some x | None => gt end)))
  ∧ (∀ tn gtn,
       template_name cls = Some tn →
       get_template_name cls ctx = Ok (Some gtn) →
       _get_template cls ctx =
       Raise (ImproperlyConfigured
         ("Received non-null value from both 'template_name' and 'get_template_name' in"
          +:+ " Component " +:+ __name__ cls
          +:+ ". Only one of the two must be set.")))
  ∧ (∀ err,
       get_template_name cls ctx = Raise err →
       _get_template cls ctx = Raise err).
Proof.
  split; [| split].
  - intros gtn gt Hlegacy Hgtn Hgt n. subst n.
    unfold _get_template, sources_set, resolve_single.
    rewrite Hlegacy.
    destruct (template_name cls) as [tn|], gtn as [g|],
      (template cls) as [[s|t]|], gt as [[s'|t']|];
      rewrite ?Hgtn; simpl; rewrite ?Hgt; simpl;
      split; intros Hn; try done; try lia; by eexists.
  - intros tn gtn Htn Hgtn. unfold _get_template. by rewrite Htn, Hgtn.
  - intros err Herr. unfold _get_template. rewrite Herr.
    by destruct (template_name cls).
Qed.

Lemma template_resolution_witness :
  let cls := Examples.styled_card in
  get_template_string cls = None
  ∧ get_template_name cls Examples.empty_context = Ok None
  ∧ get_template cls Examples.empty_context = Ok None
  ∧ sources_set (template_name cls) None (template cls) None = 1
  ∧ _get_template (H := Sample.externals) cls Examples.empty_context
    = Ok (MkTemplate None (Some true)).
Proof.
  intros cls. do 4 (split; [reflexivity |]).
  destruct (template_resolution (H := Sample.externals) cls
              Examples.empty_context) as [Hfour _].
  destruct (Hfour None None eq_refl eq_refl eq_refl) as [_ Hone].
  exact (Hone eq_refl).
Defined.

(** ** The render stack *)

Section RenderStack.
Context `{Externals}.

Lemma keeps_self_ret {A} (a : A) : keeps_self (mret a).
Proof. done. Qed.

Lemma keeps_self_raise {A} (e : exn) : keeps_self (raise (A := A) e).
Proof. done. Qed.

Lemma keeps_self_lift {A} (r : result A) : keeps_self (lift r).
Proof. done. Qed.

Lemma keeps_self_bind {A B} (m : M A) (k : A → M B) :
  keeps_self m → (∀ a, keeps_self (k a)) → keeps_self (m ≫= k).
Proof.
  intros Hm Hk st. unfold mbind, M_bind. specialize (Hm st).
  destruct (m st) as [[a|e] st']; simpl in *; [|done].
  by rewrite Hk.
Qed.

Lemma keeps_self_on_instance {A} component (m : M A) :
  keeps_self (on_instance component m).
Proof. intros st. unfold on_instance. by destruct (m _). Qed.

Lemma keeps_self_ComponentNode_render rc name cls args kwargs fills node_id
    isolated context :
  keeps_self
    (ComponentNode_render rc name cls args kwargs fills node_id isolated context).
Proof.
  unfold ComponentNode_render.
  destruct (is_extracting_fill context); [apply keeps_self_ret |].
  destruct cls; [apply keeps_self_on_instance | apply keeps_self_raise].
Qed.

(** Rendering a template never touches the stack of the component whose
    template it is: nested components are instances of their own. *)
Lemma keeps_self_render_nodelist render_cls context nodes :
  keeps_self (render_nodelist render_cls context nodes).
Proof.
  induction nodes as [|node nodes IH]; simpl; [apply keeps_self_ret |].
  apply keeps_self_bind.
  - destruct node; [apply keeps_self_ret |].
    apply keeps_self_ComponentNode_render.
  - intros bit. apply keeps_self_bind; [done |].
    intros rest. apply keeps_self_ret.
Qed.

Lemma _render_unfold cls a :
  _render cls a =
  _render_around (λ _ context, render_nodelist _render context (nodelist cls))
    cls a.
Proof. by destruct cls. Qed.

Lemma set_top_is_filled_snoc f stack item :
  set_top_is_filled f (stack ++ [item])
  = stack ++ [MkRenderStackItem (input item) (Some f)].
Proof.
  unfold set_top_is_filled. by rewrite last_snoc, removelast_last.
Qed.

Lemma bind_run {A B} (m : M A) (k : A → M B) st :
  (m ≫= k) st =
  match m st with
  | (Ok a, st') => k a st'
  | (Raise e, st') => (Raise e, st')
  end.
Proof. reflexivity. Qed.

Ltac mrun :=
  repeat (rewrite bind_run;
          unfold get_self, set_render_stack, lift, get_world, put_world,
            raise; simpl).

Lemma render_impl_stack render_template cls a self w :
  (∀ t c, keeps_self (render_template t c)) →
  let exit := _render_impl render_template cls a (MkRState self w) in
  let stack' := _render_stack (st_self exit.2) in
  match exit.1 with
  | Ok _ => stack' = _render_stack self
  | Raise _ =>
      match _validate_inputs cls (default [] (arg_args a))
              (default [] (arg_kwargs a)) (default [] (arg_slots a)) with
      | Raise _ => stack' = _render_stack self
      | Ok _ => ∃ frame, stack' = _render_stack self ++ [frame]
      end
  end.
Proof.
  intros Hrt. unfold _render_impl. mrun.
  destruct (_validate_inputs cls _ _ _) as [[]|e0]; simpl; [|done]. mrun.
  destruct (get_context_data cls _ _) as [context_data|e1]; simpl;
    [| by eexists]. mrun.
  destruct (_validate_outputs cls context_data) as [[]|e2]; simpl;
    [| by eexists]. mrun.
  destruct (cache_inlined_js cls _ w) as [w1|e3]; simpl; [| by eexists]. mrun.
  destruct (cache_inlined_css cls _ w1) as [w2|e4]; simpl; [| by eexists].
  mrun. unfold _prepare_template. mrun.
  destruct (_get_template cls _) as [template_|e5]; simpl; [| by eexists].
  destruct (_dc_patched template_) as [[]|]; simpl;
    [| by eexists | by eexists]. mrun.
  rewrite set_top_is_filled_snoc.
  destruct (on_render_before cls _ _) as [[]|e6]; simpl; [| by eexists]. mrun.
  match goal with
  | |- context [render_template ?t ?c ?st] =>
      pose proof (Hrt t c st) as Hself;
      destruct (render_template t c st) as [[html|e7] st7]
  end; simpl in *; [| rewrite Hself; by eexists]. mrun.
  destruct (on_render_after cls _ _ html) as [new_output|e8]; simpl;
    [| rewrite Hself; by eexists]. mrun.
  destruct (postprocess_component_html cls _ _ _ _ _) as [[output|e9] w9];
    simpl; mrun; [| rewrite Hself; by eexists].
  rewrite Hself; simpl. by rewrite removelast_last.
Qed.
End RenderStack.



(** ** Errors of nested renders *)

Lemma all_chars_app p a b :
  all_chars p (a +:+ b) = all_chars p a && all_chars p b.
Proof.
  induction a as [|c a IH]; simpl; [done |].
  rewrite IH. by destruct (p c).
Qed.

Lemma all_chars_join p sep names :
  all_chars p sep = true → Forall (λ n, all_chars p n = true) names →
  all_chars p (join sep names) = true.
Proof.
  intros Hsep. induction 1 as [|n names Hn Hnames IH]; simpl; [done |].
  destruct names as [|n' names]; [done |].
  rewrite !all_chars_app, Hn, Hsep. simpl. exact IH.
Qed.

Lemma split_once_app sep a b :
  all_chars (λ c, negb (Ascii.eqb c sep)) a = true →
  split_once sep (a +:+ String sep b) = (a, Some b).
Proof.
  induction a as [|c a IH]; simpl.
  - by rewrite Ascii.eqb_refl.
  - intros [Hc Ha]%andb_true_iff. apply negb_true_iff in Hc. rewrite Hc.
    by rewrite IH.
Qed.

Lemma breadcrumb_split names m :
  Forall no_newline names →
  (split_once "010" (breadcrumb names +:+ m)).2 = Some m.
Proof.
  intros Hnames. unfold breadcrumb, nl.
  rewrite !append_assoc.
  change (":" +:+ String "010" "" +:+ m) with (":" +:+ String "010" m).
  rewrite <- !append_assoc. rewrite split_once_app; [done |].
  rewrite !all_chars_app, all_chars_join; [done | done | done].
Qed.

Section Breadcrumb.
Context `{Externals}.

(** The first level that handles an exception whose first argument is a
    string puts its own name before the message. *)
Lemma annotate_error_fresh name cls m rest components :
  components = None ∨ components = Some [] →
  annotate_error name (Exn cls (PStr m :: rest) components)
  = Exn cls [PStr (breadcrumb [name] +:+ m)] (Some [name]).
Proof. by intros [-> | ->]. Qed.

(** A further level replaces the path, and leaves the message as it was. *)
Lemma annotate_error_again name cls names m :
  names ≠ [] → Forall no_newline names →
  annotate_error name (Exn cls [PStr (breadcrumb names +:+ m)] (Some names))
  = Exn cls [PStr (breadcrumb (name :: names) +:+ m)] (Some (name :: names)).
Proof.
  intros Hne Hnames. unfold annotate_error.
  cbn [exn_args exn_components exn_class default].
  rewrite bool_decide_false by done.
  pose proof (breadcrumb_split names m Hnames) as Hsplit.
  destruct (split_once "010" (breadcrumb names +:+ m)) as [before after].
  simpl in Hsplit. by rewrite Hsplit.
Qed.

(** For an exception with a string message, raised below the components
    [names] (outermost first, none of whose names has a line break), the
    message that surfaces is the path of all of them and the message. *)
Lemma annotate_error_path names cls m rest :
  names ≠ [] → Forall no_newline names →
  foldr annotate_error (Exn cls (PStr m :: rest) None) names
  = Exn cls [PStr (breadcrumb names +:+ m)] (Some names).
Proof.
  induction names as [|name names IH]; [done |].
  intros _ Hnames. apply Forall_cons in Hnames as [_ Hnames]. simpl foldr.
  destruct names as [|name' names].
  - by apply annotate_error_fresh; left.
  - rewrite IH by done. by apply annotate_error_again.
Qed.
End Breadcrumb.

(** The scenario of the specification: [Inner] raises [KeyError("x")]. *)
Example breadcrumb_outer_inner :
  (render (H := Sample.externals)
     (inl (Examples.outer (Exn "KeyError" [PStr "x"] None)))
     Sample.default_args Sample.empty_world).1
  = Raise (Exn "KeyError"
             [PStr ("An error occured while rendering components Outer > Inner:"
                    +:+ nl +:+ "x")]
             (Some ["Outer"; "Inner"])).
Proof. reflexivity. Qed.

(** C5 (failing input): [Inner] raises an exception without a string as its
    first argument.  For [NotImplementedError()] the handler of [Inner]
    fails on [err.args[0]], for [KeyError(1)] on [prefix + orig_msg]; what
    surfaces is the handler's own [IndexError] or [TypeError], and its path
    names [Outer] only. *)
Theorem breadcrumb_lost_without_message :
  let E := Sample.externals in
  (render (inl (Examples.outer (Exn "NotImplementedError" [] None)))
     Sample.default_args Sample.empty_world).1
  = Raise (Exn "IndexError"
             [PStr ("An error occured while rendering components Outer:"
                    +:+ nl +:+ "tuple index out of range")]
             (Some ["Outer"]))
  ∧ (render (inl (Examples.outer (Exn "KeyError" [PInt 1] None)))
       Sample.default_args Sample.empty_world).1
    = Raise (Exn "TypeError"
               [PStr ("An error occured while rendering components Outer:"
                      +:+ nl +:+ "can only concatenate str (not " +:+ dq
                      +:+ "int" +:+ dq +:+ ") to str")]
               (Some ["Outer"])).
Proof. split; reflexivity. Qed.

(** ** Scanning with a pattern *)

Lemma drop_str_app a b : drop_str (String.length a) (a +:+ b) = b.
Proof. induction a as [|c a IH]; simpl; [by destruct b | done]. Qed.

Section RegexSub.
Context {A : Type} (pattern : string → option (A * string))
  (on_replace_match : A → string).

Lemma regex_sub_skip k s :
  regex_sub pattern on_replace_match k s
  = regex_sub pattern on_replace_match 0 (drop_str k s).
Proof.
  revert k. induction s as [|c s IH]; intros [|k]; simpl; done.
Qed.

(** Where the pattern matches [m], the match is replaced and the scan goes
    on after it. *)
Lemma regex_sub_match m x rest :
  m ≠ "" → pattern (m +:+ rest) = Some (x, rest) →
  regex_sub pattern on_replace_match 0 (m +:+ rest)
  = (x :: (regex_sub pattern on_replace_match 0 rest).1,
     on_replace_match x +:+ (regex_sub pattern on_replace_match 0 rest).2).
Proof.
  destruct m as [|c m]; [done |]. intros _ Hm.
  rewrite append_cons in *. simpl. rewrite Hm.
  rewrite regex_sub_skip, length_append.
  replace (String.length m + String.length rest - String.length rest)
    with (String.length m) by lia.
  rewrite drop_str_app. by destruct (regex_sub _ _ 0 rest).
Qed.

(** Where it does not match, the character is kept. *)
Lemma regex_sub_no_match c s :
  pattern (String c s) = None →
  regex_sub pattern on_replace_match 0 (String c s)
  = ((regex_sub pattern on_replace_match 0 s).1,
     String c (regex_sub pattern on_replace_match 0 s).2).
Proof. intros Hm. simpl. rewrite Hm. by destruct (regex_sub _ _ 0 s). Qed.
End RegexSub.

(** ** The marker comment *)

Lemma all_chars_impl (p q : ascii → bool) s :
  (∀ c, p c = true → q c = true) → all_chars p s = true → all_chars q s = true.
Proof.
  intros Hpq. induction s as [|c s IH]; simpl; [done |].
  intros [Hc Hs]%andb_true_iff. by rewrite (Hpq c Hc), IH.
Qed.

Lemma span_app p a c r :
  all_chars p a = true → p c = false →
  span p (a +:+ String c r) = (a, String c r).
Proof.
  intros Ha Hc. induction a as [|b a IH]; simpl in *.
  - by rewrite Hc.
  - apply andb_true_iff in Ha as [Hb Ha]. by rewrite Hb, IH.
Qed.

Lemma is_empty_false s : s ≠ "" → is_empty s = false.
Proof. by destruct s. Qed.

Lemma is_empty_app_false a b : a ≠ "" → is_empty (a +:+ b) = false.
Proof. by destruct a. Qed.

(** The pattern recognises a marker whose data is made of characters of
    its class. *)
Lemma comment_regex_marker data rest :
  data ≠ "" → all_chars is_comment_data_char data = true →
  COMPONENT_COMMENT_REGEX (COMPONENT_DEPS_COMMENT data +:+ rest)
  = Some (data, rest).
Proof.
  intros Hne Hdata. unfold COMPONENT_COMMENT_REGEX, COMPONENT_DEPS_COMMENT.
  rewrite !append_assoc, strip_prefix_app.
  change (" -->" +:+ rest) with (String " " ("-->" +:+ rest)).
  rewrite span_app by done.
  rewrite is_empty_false by done.
  change (String " " ("-->" +:+ rest)) with (" -->" +:+ rest).
  by rewrite strip_prefix_app.
Qed.

Lemma chomp_newline_word id :
  all_chars is_word id = true → chomp_newline id = id.
Proof.
  induction id as [|c id IH]; simpl; [done |].
  intros [Hc Hid]%andb_true_iff. rewrite IH by done.
  destruct (Ascii.eqb_spec c "010") as [->|]; [done | done].
Qed.

Lemma script_name_regex_pair comp_cls_hash id :
  comp_cls_hash ≠ "" → all_chars is_cls_hash_char comp_cls_hash = true →
  id ≠ "" → all_chars is_word id = true →
  SCRIPT_NAME_REGEX (comp_cls_hash +:+ "," +:+ id) = Some (comp_cls_hash, id).
Proof.
  intros Hh Hhash Hi Hid. unfold SCRIPT_NAME_REGEX.
  change ("," +:+ id) with (String "," id).
  rewrite split_once_app.
  - rewrite chomp_newline_word by done.
    by rewrite !is_empty_false, Hhash, Hid by done.
  - revert Hhash. apply all_chars_impl. intros c Hc.
    destruct (Ascii.eqb_spec c ",") as [->|]; done.
Qed.

(** For a class hash without a dot the marker makes the round trip: the
    scan finds its data first, parses it back to the pair, removes the
    marker, and goes on with the content. *)
Lemma marker_round_trip comp_cls_hash id content :
  comp_cls_hash ≠ "" → all_chars is_cls_hash_char comp_cls_hash = true →
  all_chars (λ c, negb (Ascii.eqb c ".")) comp_cls_hash = true →
  id ≠ "" → all_chars is_word id = true →
  let data := comp_cls_hash +:+ "," +:+ id in
  let scan := regex_sub COMPONENT_COMMENT_REGEX (λ _, "") 0 in
  scan (COMPONENT_DEPS_COMMENT data +:+ content)
  = (data :: (scan content).1, (scan content).2)
  ∧ SCRIPT_NAME_REGEX data = Some (comp_cls_hash, id).
Proof.
  intros Hh Hhash Hdot Hi Hid data scan. split.
  - unfold scan.
    rewrite (regex_sub_match _ _ (COMPONENT_DEPS_COMMENT data) data content);
      [done | done |].
    apply comment_regex_marker; [by destruct comp_cls_hash |].
    unfold data. rewrite !all_chars_app. apply andb_true_iff. split.
    + clear Hh data. induction comp_cls_hash as [|c h IH]; simpl in *; [done |].
      apply andb_true_iff in Hhash as [Hc Hhash].
      apply andb_true_iff in Hdot as [Hd Hdot].
      rewrite IH by done. rewrite andb_true_r.
      unfold is_cls_hash_char, is_comment_data_char in *.
      apply negb_true_iff in Hd. rewrite Hd in Hc.
      destruct (is_word c), (Ascii.eqb c "-"), (Ascii.eqb c "/"),
        (Ascii.eqb c ","); done.
    + simpl. revert Hid. apply all_chars_impl. intros c Hc.
      unfold is_comment_data_char. by rewrite Hc.
  - by apply script_name_regex_pair.
Qed.

(** C3 (failing input): the class hash [My.Card_d41d8c] and the component
    id [c1] are in the classes of [SCRIPT_NAME_REGEX], which parses their
    marker data back to the pair; but [COMPONENT_COMMENT_REGEX] has no dot
    in its class, so the scan finds no marker: nothing is recovered and the
    marker stays in the text, also at the end of a whole render. *)
Theorem dotted_hash_marker_not_recovered :
  let comp_cls_hash := "My.Card_d41d8c" in
  let component_id := "c1" in
  let data := comp_cls_hash +:+ "," +:+ component_id in
  let html := COMPONENT_DEPS_COMMENT data +:+ "<p>hi</p>" in
  all_chars is_cls_hash_char comp_cls_hash = true
  ∧ all_chars is_word component_id = true
  ∧ SCRIPT_NAME_REGEX data = Some (comp_cls_hash, component_id)
  ∧ regex_sub COMPONENT_COMMENT_REGEX (λ _, "") 0 html = ([], html)
  ∧ _hash_comp_cls (H := Sample.externals) Examples.dotted_card
    = comp_cls_hash
  ∧ (render (H := Sample.externals) (inl Examples.dotted_card)
       Sample.default_args Sample.empty_world).1
    = Ok (COMPONENT_DEPS_COMMENT (comp_cls_hash +:+ "," +:+ "a1bc3f")
          +:+ "<p>hi</p>").
Proof. repeat split. Qed.

(** ** The order of the class hashes *)

Lemma elem_of_first_seen l x : x ∈ first_seen l ↔ x ∈ l.
Proof.
  induction l as [|y l IH]; simpl; [done |].
  rewrite !elem_of_cons, list_elem_of_filter, IH.
  destruct (decide (x = y)); naive_solver.
Qed.

Lemma NoDup_first_seen l : NoDup (first_seen l).
Proof.
  induction l as [|y l IH]; simpl; [constructor |].
  apply NoDup_cons. split; [| by apply NoDup_filter].
  rewrite list_elem_of_filter. naive_solver.
Qed.

Lemma first_seen_app l1 l2 :
  first_seen (l1 ++ l2)
  = first_seen l1 ++ filter (λ h, h ∉ l1) (first_seen l2).
Proof.
  induction l1 as [|x l1 IH]; simpl.
  - symmetry. induction (first_seen l2) as [|y l IHl]; [done |].
    rewrite filter_cons_True by apply not_elem_of_nil. by f_equal.
  - f_equal. rewrite IH, filter_app. f_equal.
    rewrite list_filter_filter. apply list_filter_iff.
    intros h. rewrite not_elem_of_cons. naive_solver.
Qed.

Lemma first_seen_later_duplicate l1 h l2 :
  h ∈ l1 → first_seen (l1 ++ h :: l2) = first_seen (l1 ++ l2).
Proof.
  intros Hin. rewrite !first_seen_app. f_equal. simpl.
  rewrite filter_cons_False by naive_solver.
  apply list_filter_filter_l. intros x Hx ->. done.
Qed.

Lemma collect_comp_hashes_acc all_parts hs seen comp_hashes :
  Forall2 (λ part h, ∃ id, SCRIPT_NAME_REGEX part = Some (h, id)) all_parts hs →
  collect_comp_hashes all_parts seen comp_hashes
  = Ok (comp_hashes ++ filter (λ h, h ∉ seen) (first_seen hs)).
Proof.
  intros Hparts. revert seen comp_hashes.
  induction Hparts as [|part h all_parts hs [id Hpart] _ IH];
    intros seen comp_hashes; simpl.
  - by rewrite app_nil_r.
  - rewrite Hpart. case_bool_decide as Hseen.
    + rewrite IH. do 2 f_equal.
      rewrite filter_cons_False by naive_solver.
      symmetry. apply list_filter_filter_l. intros x Hx ->. done.
    + rewrite IH, <- app_assoc. do 2 f_equal. simpl.
      rewrite filter_cons_True by done. f_equal.
      rewrite list_filter_filter. apply list_filter_iff.
      intros x. set_solver.
Qed.



(** ** Document and fragment *)


Section Assets.
Context `{Externals}.

Lemma result_bind_Ok {A B} (a : A) (k : A → result B) : (Ok a ≫= k) = k a.
Proof. reflexivity. Qed.

Lemma get_script_tag_js cls w content :
  get_script_content "js" cls w = Some content →
  contains "</script" content = false →
  _get_script_tag "js" cls w = Ok (literal_block "js" content).
Proof.
  intros Hget Hclose. unfold _get_script_tag. rewrite Hget. simpl.
  by rewrite Hclose.
Qed.

Lemma get_script_tag_css cls w content :
  get_script_content "css" cls w = Some content →
  contains "</style" content = false →
  _get_script_tag "css" cls w = Ok (literal_block "css" content).
Proof.
  intros Hget Hclose. unfold _get_script_tag. rewrite Hget. simpl.
  by rewrite Hclose.
Qed.

Lemma prepare_loop_document w acc hashes :
  Forall (all_inlined w) hashes → Forall (all_cached w) hashes →
  prepare_loop "document" w acc hashes
  = Ok (MkTagsAndUrls
          (to_load_js_urls acc) (to_load_css_urls acc)
          (inlined_js_tags acc ++ asset_blocks "js" w hashes)
          (inlined_css_tags acc ++ asset_blocks "css" w hashes)
          (loaded_js_urls acc ++ asset_urls "js" w hashes)
          (loaded_css_urls acc ++ asset_urls "css" w hashes)).
Proof.
  intros Hin Hca. revert acc.
  induction Hin as [|h hashes (cls & Hcls & _) _ IH]; intros acc.
  - simpl. rewrite !app_nil_r. by destruct acc.
  - apply Forall_cons in Hca as [Hh Hca]. specialize (IH Hca).
    destruct (Hh cls Hcls) as [Hjs Hcss].
    unfold asset_blocks, asset_urls. simpl. rewrite Hcls. simpl.
    unfold prepare_one, getitem. rewrite Hcls. rewrite result_bind_Ok.
    rewrite bool_decide_true by done.
    unfold cached, declared in Hjs, Hcss. simpl in Hjs, Hcss.
    unfold declared. simpl.
    destruct (_is_nonempty_str (js cls)) eqn:Ejs.
    + destruct (Hjs eq_refl) as (cjs & Hgjs & Hcjs).
      rewrite (get_script_tag_js _ _ _ Hgjs Hcjs), Hgjs. simpl.
      destruct (_is_nonempty_str (css cls)) eqn:Ecss.
      * destruct (Hcss eq_refl) as (ccss & Hgcss & Hccss).
        rewrite (get_script_tag_css _ _ _ Hgcss Hccss), Hgcss. simpl.
        etrans; [apply IH |]. simpl. by rewrite <- !app_assoc.
      * etrans; [apply IH |]. simpl. by rewrite <- !app_assoc.
    + simpl. destruct (_is_nonempty_str (css cls)) eqn:Ecss.
      * destruct (Hcss eq_refl) as (ccss & Hgcss & Hccss).
        rewrite (get_script_tag_css _ _ _ Hgcss Hccss), Hgcss. simpl.
        etrans; [apply IH |]. simpl. by rewrite <- !app_assoc.
      * etrans; [apply IH |]. done.
Qed.

Lemma prepare_loop_fragment w acc hashes :
  Forall (all_inlined w) hashes →
  prepare_loop "fragment" w acc hashes
  = Ok (MkTagsAndUrls
          (to_load_js_urls acc ++ asset_urls "js" w hashes)
          (to_load_css_urls acc ++ asset_urls "css" w hashes)
          (inlined_js_tags acc) (inlined_css_tags acc)
          (loaded_js_urls acc) (loaded_css_urls acc)).
Proof.
  intros Hin. revert acc.
  induction Hin as [|h hashes (cls & Hcls & _) _ IH]; intros acc.
  - simpl. rewrite !app_nil_r. by destruct acc.
  - unfold asset_urls. simpl. unfold prepare_one, getitem.
    rewrite !Hcls. simpl. rewrite ?result_bind_Ok.
    unfold declared. simpl.
    destruct (_is_nonempty_str (js cls)), (_is_nonempty_str (css cls));
      simpl; rewrite ?result_bind_Ok; (etrans; [apply IH |]); simpl;
      by rewrite <- ?app_assoc.
Qed.

Lemma mapM_component_media w hashes :
  Forall (all_inlined w) hashes →
  ∃ medias,
    mapM (λ comp_cls_hash,
            comp_cls ← getitem (comp_hash_mapping w) comp_cls_hash;
            Ok (media comp_cls)) hashes = Ok medias
    ∧ Forall (λ m, media_js m = [] ∧ Forall (λ mp, mp.2 = []) (media_css m))
        medias.
Proof.
  induction 1 as [|h hashes (cls & Hcls & Hmedia) _ (medias & IH & Hmedias)].
  - by exists [].
  - exists (media cls :: medias). split; [| by constructor].
    simpl.
    assert (getitem (comp_hash_mapping w) h = Ok cls) as ->
      by (unfold getitem; by rewrite Hcls).
    rewrite !result_bind_Ok. rewrite IH. done.
Qed.

Lemma bind_renders_nothing {A} (f : Media → list A) medias :
  Forall (λ m, f m = []) medias → medias ≫= f = [].
Proof.
  induction 1 as [|m medias Hm _ IH]; [done |].
  by rewrite bind_cons, Hm, IH.
Qed.
End Assets.

Lemma concat_str_app l1 l2 :
  concat_str (l1 ++ l2) = concat_str l1 +:+ concat_str l2.
Proof.
  induction l1 as [|x l1 IH]; simpl; [done |].
  by rewrite IH, append_assoc.
Qed.

Lemma regex_sub_ext {A} (pattern : string → option (A * string))
    (f g : A → string) k s :
  (∀ x, f x = g x) → regex_sub pattern f k s = regex_sub pattern g k s.
Proof.
  intros Hfg. revert k. induction s as [|c s IH]; intros [|k]; simpl; try done.
  destruct (pattern (String c s)) as [[x rest]|]; rewrite IH; [| done].
  by rewrite Hfg.
Qed.

Section DocumentAndFragment.
Context `{Externals}.

#[local] Arguments _gen_exec_script : simpl never.
#[local] Arguments sorted : simpl never.

Lemma postprocess_media_tags_nil script_type :
  _postprocess_media_tags script_type [] = Ok ([], []).
Proof. reflexivity. Qed.

Lemma process_document content w all_parts content' hashes :
  renders_paths_only →
  regex_sub COMPONENT_COMMENT_REGEX (λ _, "") 0 content = (all_parts, content') →
  collect_comp_hashes all_parts ∅ [] = Ok hashes →
  Forall (all_inlined w) hashes → Forall (all_cached w) hashes →
  _process_dep_declarations content "document" w
  = Ok (content',
        concat_str
          (render_js
             (MkMedia [static "django_components/django_components.min.js"] []))
        +:+ default ""
              (_gen_exec_script [] [] (sorted (asset_urls "js" w hashes))
                 (sorted (asset_urls "css" w hashes)))
        +:+ concat_str (asset_blocks "js" w hashes),
        concat_str (asset_blocks "css" w hashes)).
Proof.
  intros [Hjs0 Hcss0] Hscan Hhashes Hin Hca.
  unfold _process_dep_declarations. rewrite Hscan, Hhashes, result_bind_Ok.
  unfold _prepare_tags_and_urls.
  rewrite (prepare_loop_document _ _ _ Hin Hca), result_bind_Ok. simpl.
  destruct (mapM_component_media w hashes Hin) as (medias & -> & Hmedias).
  rewrite result_bind_Ok.
  rewrite !bind_app, !bind_cons. simpl.
  rewrite (bind_renders_nothing render_css medias),
    (bind_renders_nothing render_js medias).
  2: { eapply Forall_impl; [exact Hmedias |]. intros m [? ?]. by apply Hjs0. }
  2: { eapply Forall_impl; [exact Hmedias |]. intros m [? ?]. by apply Hcss0. }
  rewrite (Hcss0 (MkMedia [] [("all", [])])) by (by repeat constructor).
  rewrite (Hjs0 (MkMedia [] [("all", [])])) by done.
  simpl. rewrite ?postprocess_media_tags_nil, ?result_bind_Ok. simpl.
  rewrite !app_nil_r. do 2 f_equal.
  rewrite !concat_str_app. f_equal.
  by destruct (_gen_exec_script _ _ _ _); simpl; rewrite ?append_nil_r.
Qed.

Lemma process_fragment content w all_parts content' hashes
    css_tags css_urls js_tags js_urls :
  renders_paths_only →
  regex_sub COMPONENT_COMMENT_REGEX (λ _, "") 0 content = (all_parts, content') →
  collect_comp_hashes all_parts ∅ [] = Ok hashes →
  Forall (all_inlined w) hashes →
  let to_load :=
    MkMedia (asset_urls "js" w hashes) [("all", asset_urls "css" w hashes)] in
  _postprocess_media_tags "css" (render_css to_load) = Ok (css_tags, css_urls) →
  _postprocess_media_tags "js" (render_js to_load) = Ok (js_tags, js_urls) →
  _process_dep_declarations content "fragment" w
  = Ok (content', default "" (_gen_exec_script js_tags css_tags [] []),
        concat_str css_tags).
Proof.
  intros [Hjs0 Hcss0] Hscan Hhashes Hin to_load Hcss Hjs.
  unfold _process_dep_declarations. rewrite Hscan, Hhashes, result_bind_Ok.
  unfold _prepare_tags_and_urls.
  rewrite (prepare_loop_fragment _ _ _ Hin), result_bind_Ok. simpl.
  destruct (mapM_component_media w hashes Hin) as (medias & -> & Hmedias).
  rewrite result_bind_Ok.
  rewrite !bind_app, !bind_cons. simpl.
  rewrite (bind_renders_nothing render_css medias),
    (bind_renders_nothing render_js medias).
  2: { eapply Forall_impl; [exact Hmedias |]. intros m [? ?]. by apply Hjs0. }
  2: { eapply Forall_impl; [exact Hmedias |]. intros m [? ?]. by apply Hcss0. }
  simpl. rewrite !app_nil_r. fold to_load.
  rewrite Hcss, result_bind_Ok, Hjs, result_bind_Ok. simpl.
  rewrite (Hjs0 (MkMedia [] [])) by done. simpl.
  change (sorted []) with (@nil string).
  do 2 f_equal. rewrite app_nil_r.
  by destruct (_gen_exec_script _ _ _ _); simpl; rewrite ?append_nil_r.
Qed.

(** A fragment only loses its placeholders and gains what
    [_process_dep_declarations] returns as scripts. *)
Lemma render_dependencies_fragment content w content' js_dependencies
    css_dependencies :
  _process_dep_declarations content "fragment" w
  = Ok (content', js_dependencies, css_dependencies) →
  _render_dependencies content "fragment" w
  = Ok ((regex_sub PLACEHOLDER_REGEX (λ _, "") 0 content').2
        +:+ js_dependencies).
Proof.
  intros Hprocess. unfold _render_dependencies. simpl.
  rewrite Hprocess, result_bind_Ok. simpl.
  rewrite (regex_sub_ext _ _ (λ _, "")) by (by intros []).
  by destruct (regex_sub _ _ 0 content').
Qed.
End DocumentAndFragment.

(** There is a manifest exactly when one of its four lists has an entry. *)
Lemma gen_exec_script_manifest `{Externals} to_load_js_tags to_load_css_tags
    loaded_js_urls loaded_css_urls :
  _gen_exec_script to_load_js_tags to_load_css_tags loaded_js_urls
    loaded_css_urls
  = if bool_decide (to_load_js_tags ++ to_load_css_tags ++ loaded_js_urls
                    ++ loaded_css_urls = [])
    then None
    else Some (manifest to_load_js_tags to_load_css_tags loaded_js_urls
                 loaded_css_urls).
Proof.
  unfold _gen_exec_script, manifest, MANIFEST_OPEN.
  destruct to_load_js_tags, to_load_css_tags, loaded_js_urls, loaded_css_urls;
    try done.
  all: rewrite bool_decide_false by done.
  all: f_equal; rewrite <- ?append_assoc; reflexivity.
Qed.

Lemma sample_renders_paths_only :
  renders_paths_only (H := Sample.externals).
Proof.
  split; simpl.
  - intros m Hm. unfold Sample.script_tags. by rewrite Hm.
  - intros m. unfold Sample.link_tags.
    induction 1 as [|[medium paths] l Hp _ IH]; [done |].
    simpl in Hp. subst paths. rewrite bind_cons. simpl. exact IH.
Qed.



(** ** Placeholders and default locations *)

Lemma contains_cons sub c s :
  contains sub (String c s) = starts_with sub (String c s) || contains sub s.
Proof. reflexivity. Qed.

Lemma contains_starts_with sub s : starts_with sub s = true → contains sub s = true.
Proof. intros Hs. destruct s; simpl; by rewrite Hs. Qed.

Lemma starts_with_app p s : starts_with p (p +:+ s) = true.
Proof. unfold starts_with. by rewrite strip_prefix_app. Qed.

(** What a match of [PLACEHOLDER_REGEX] is. *)
Lemma placeholder_regex_cases s :
  match PLACEHOLDER_REGEX s with
  | Some (true, rest) => s = CSS_DEPENDENCY_PLACEHOLDER +:+ rest
  | Some (false, rest) => s = JS_DEPENDENCY_PLACEHOLDER +:+ rest
  | None =>
      starts_with CSS_DEPENDENCY_PLACEHOLDER s = false
      ∧ starts_with JS_DEPENDENCY_PLACEHOLDER s = false
  end.
Proof.
  unfold PLACEHOLDER_REGEX, starts_with.
  destruct (strip_prefix CSS_DEPENDENCY_PLACEHOLDER s) as [rest|] eqn:Ecss.
  - by apply strip_prefix_Some.
  - destruct (strip_prefix JS_DEPENDENCY_PLACEHOLDER s) as [rest|] eqn:Ejs.
    + by apply strip_prefix_Some.
    + done.
Qed.

(** No placeholder starts inside the other one. *)
Lemma contains_css_after_js rest :
  contains CSS_DEPENDENCY_PLACEHOLDER (JS_DEPENDENCY_PLACEHOLDER +:+ rest)
  = contains CSS_DEPENDENCY_PLACEHOLDER rest.
Proof. reflexivity. Qed.

Lemma contains_js_after_css rest :
  contains JS_DEPENDENCY_PLACEHOLDER (CSS_DEPENDENCY_PLACEHOLDER +:+ rest)
  = contains JS_DEPENDENCY_PLACEHOLDER rest.
Proof. reflexivity. Qed.

(** Without a placeholder in it, the content goes through the scan as it
    is. *)
Lemma placeholder_scan_none (f : bool → string) s :
  contains CSS_DEPENDENCY_PLACEHOLDER s = false →
  contains JS_DEPENDENCY_PLACEHOLDER s = false →
  regex_sub PLACEHOLDER_REGEX f 0 s = ([], s).
Proof.
  induction s as [|c s IH]; [done |].
  rewrite !contains_cons.
  intros [Hcss Hcss']%orb_false_iff [Hjs Hjs']%orb_false_iff.
  pose proof (placeholder_regex_cases (String c s)) as Hm.
  destruct (PLACEHOLDER_REGEX (String c s)) as [[[] rest]|] eqn:Ematch.
  - by rewrite Hm, starts_with_app in Hcss.
  - by rewrite Hm, starts_with_app in Hjs.
  - rewrite regex_sub_no_match by done. by rewrite IH.
Qed.

(** A placeholder in the content is found by the scan. *)
Lemma css_placeholder_found (f : bool → string) s :
  contains CSS_DEPENDENCY_PLACEHOLDER s = true →
  existsb id (regex_sub PLACEHOLDER_REGEX f 0 s).1 = true.
Proof.
  remember (String.length s) as n eqn:Hn. revert s Hn.
  induction n as [n IH] using lt_wf_ind. intros s -> Hs.
  pose proof (placeholder_regex_cases s) as Hm.
  destruct (PLACEHOLDER_REGEX s) as [[[] rest]|] eqn:Ematch.
  - subst s. by rewrite (regex_sub_match _ _ _ true rest).
  - subst s. rewrite (regex_sub_match _ _ _ false rest) by done.
    rewrite contains_css_after_js in Hs. simpl.
    eapply IH; [| done | done]. rewrite length_append. simpl. lia.
  - destruct s as [|c s]; [done |].
    rewrite regex_sub_no_match by done.
    rewrite contains_cons in Hs. destruct Hm as [Hm _]. rewrite Hm in Hs.
    simpl in Hs |- *.
    eapply IH; [| done | done]. simpl. lia.
Qed.

Lemma js_placeholder_found (f : bool → string) s :
  contains JS_DEPENDENCY_PLACEHOLDER s = true →
  existsb negb (regex_sub PLACEHOLDER_REGEX f 0 s).1 = true.
Proof.
  remember (String.length s) as n eqn:Hn. revert s Hn.
  induction n as [n IH] using lt_wf_ind. intros s -> Hs.
  pose proof (placeholder_regex_cases s) as Hm.
  destruct (PLACEHOLDER_REGEX s) as [[[] rest]|] eqn:Ematch.
  - subst s. rewrite (regex_sub_match _ _ _ true rest) by done.
    rewrite contains_js_after_css in Hs. simpl.
    eapply IH; [| done | done]. rewrite length_append. simpl. lia.
  - subst s. by rewrite (regex_sub_match _ _ _ false rest).
  - destruct s as [|c s]; [done |].
    rewrite regex_sub_no_match by done.
    rewrite contains_cons in Hs. destruct Hm as [_ Hm]. rewrite Hm in Hs.
    simpl in Hs |- *.
    eapply IH; [| done | done]. simpl. lia.
Qed.

(** *** Markers and placeholders *)

Lemma span_spec p s a b :
  span p s = (a, b) → s = a +:+ b ∧ all_chars p a = true.
Proof.
  revert a b. induction s as [|c s IH]; intros a b; simpl.
  - by intros [= <- <-].
  - destruct (p c) eqn:Hc; [| by intros [= <- <-]].
    destruct (span p s) as [a' b']. intros [= <- <-].
    destruct (IH _ _ eq_refl) as [-> Ha]. simpl. by rewrite Hc.
Qed.

(** What a match of [COMPONENT_COMMENT_REGEX] is. *)
Lemma comment_regex_Some s data rest :
  COMPONENT_COMMENT_REGEX s = Some (data, rest) →
  s = COMPONENT_DEPS_COMMENT data +:+ rest
  ∧ all_chars is_comment_data_char data = true ∧ data ≠ "".
Proof.
  unfold COMPONENT_COMMENT_REGEX, COMPONENT_DEPS_COMMENT.
  destruct (strip_prefix "<!-- _RENDERED " s) as [r|] eqn:Hr; [| done].
  apply strip_prefix_Some in Hr as ->.
  destruct (span is_comment_data_char r) as [d r'] eqn:Hspan.
  apply span_spec in Hspan as [-> Hd].
  destruct (is_empty d) eqn:Hempty; [done |].
  destruct (strip_prefix " -->" r') as [rest'|] eqn:Hr'; [| done].
  apply strip_prefix_Some in Hr' as ->. intros [= <- <-].
  rewrite !append_assoc. split; [done |]. split; [done |]. by destruct d.
Qed.

Lemma starts_with_cons a p c s :
  starts_with (String a p) (String c s)
  = if Ascii.eqb a c then starts_with p s else false.
Proof. unfold starts_with. cbn [strip_prefix]. by destruct (Ascii.eqb a c). Qed.

(** A text that begins with [<] does not start among characters that are
    not [<]. *)
Lemma contains_skip tok a rest :
  all_chars (λ c, negb (Ascii.eqb c "<")) a = true →
  contains (String "<" tok) (a +:+ rest) = contains (String "<" tok) rest.
Proof.
  induction a as [|c a IH]; [done |]. simpl all_chars.
  intros [Hc Ha]%andb_true_iff. rewrite append_cons, contains_cons, IH by done.
  rewrite starts_with_cons, Ascii.eqb_sym.
  by apply negb_true_iff in Hc as ->.
Qed.

Lemma comment_data_not_lt data :
  all_chars is_comment_data_char data = true →
  all_chars (λ c, negb (Ascii.eqb c "<")) data = true.
Proof.
  apply all_chars_impl. intros c Hc.
  destruct (Ascii.eqb_spec c "<") as [-> |]; done.
Qed.

(** No placeholder starts inside a marker. *)
Lemma contains_after_marker tok data rest :
  tok = CSS_DEPENDENCY_PLACEHOLDER ∨ tok = JS_DEPENDENCY_PLACEHOLDER →
  all_chars is_comment_data_char data = true →
  contains tok (COMPONENT_DEPS_COMMENT data +:+ rest) = contains tok rest.
Proof.
  intros Htok Hdata%comment_data_not_lt. unfold COMPONENT_DEPS_COMMENT.
  rewrite !append_assoc.
  transitivity (contains tok (data +:+ " -->" +:+ rest));
    [by destruct Htok as [-> | ->] |].
  transitivity (contains tok (" -->" +:+ rest));
    [| by destruct Htok as [-> | ->]].
  destruct Htok as [-> | ->]; by apply contains_skip.
Qed.

(** No marker starts inside a placeholder. *)
Lemma markers_after_placeholder tok r :
  tok = CSS_DEPENDENCY_PLACEHOLDER ∨ tok = JS_DEPENDENCY_PLACEHOLDER →
  (regex_sub COMPONENT_COMMENT_REGEX (λ _, "") 0 (tok +:+ r)).2
  = tok +:+ (regex_sub COMPONENT_COMMENT_REGEX (λ _, "") 0 r).2.
Proof.
  intros [-> | ->]; cbn;
    by destruct (regex_sub COMPONENT_COMMENT_REGEX (λ _, "") 0 r).
Qed.

(** A placeholder of the content is still there when the markers are taken
    out. *)
Lemma markers_keep_placeholder tok s :
  tok = CSS_DEPENDENCY_PLACEHOLDER ∨ tok = JS_DEPENDENCY_PLACEHOLDER →
  contains tok s = true →
  contains tok (regex_sub COMPONENT_COMMENT_REGEX (λ _, "") 0 s).2 = true.
Proof.
  intros Htok. remember (String.length s) as n eqn:Hn. revert s Hn.
  induction n as [n IH] using lt_wf_ind. intros s -> Hs.
  destruct (COMPONENT_COMMENT_REGEX s) as [[data rest]|] eqn:Ematch.
  - destruct (comment_regex_Some _ _ _ Ematch) as (-> & Hdata & Hne).
    rewrite (regex_sub_match _ _ _ data rest); [| by destruct data | done].
    rewrite contains_after_marker in Hs by done. simpl.
    eapply IH; [| done | done]. rewrite length_append.
    unfold COMPONENT_DEPS_COMMENT. simpl. lia.
  - destruct s as [|c s]; [by destruct Htok as [-> | ->] |].
    destruct (starts_with tok (String c s)) eqn:Hstart.
    + unfold starts_with in Hstart.
      destruct (strip_prefix tok (String c s)) as [r|] eqn:Hr; [| done].
      apply strip_prefix_Some in Hr. rewrite Hr.
      rewrite markers_after_placeholder by done.
      apply contains_starts_with, starts_with_app.
    + rewrite contains_cons, Hstart in Hs. simpl in Hs.
      rewrite regex_sub_no_match by done. simpl snd.
      rewrite contains_cons. apply orb_true_iff. right.
      eapply IH; [| done | done]. simpl. lia.
Qed.

(** *** Sections of the parsed document *)

Lemma SoupNode_nested_ind (P : SoupNode → Prop) :
  (∀ s, P (SoupText s)) →
  (∀ tag attrs children, Forall P children → P (SoupElem tag attrs children)) →
  ∀ n, P n.
Proof.
  intros Htext Helem. fix IH 1. intros [s | tag attrs children].
  - apply Htext.
  - apply Helem. induction children as [|c cs IHcs]; constructor.
    + apply IH.
    + exact IHcs.
Qed.

Lemma find_first_Some f i cs p :
  find_first f i cs = Some p →
  ∃ k c q, p = (i + k)%nat :: q ∧ cs !! k = Some c ∧ f c = Some q.
Proof.
  revert i. induction cs as [|c cs IH]; intros i; simpl; [done |].
  destruct (f c) as [q|] eqn:Hc.
  - intros [= <-]. exists 0%nat, c, q. by rewrite Nat.add_0_r.
  - intros (k & c' & q & -> & Hk & Hq)%IH.
    exists (S k), c', q. split; [f_equal; lia | done].
Qed.

(** [find_tag] yields the path of an element that has the tag. *)
Lemma find_tag_node_at tag n p :
  find_tag tag n = Some p →
  ∃ attrs children, node_at p n = Some (SoupElem tag attrs children).
Proof.
  revert p. induction n as [s | t attrs children IH] using SoupNode_nested_ind;
    intros p; simpl; [done |].
  destruct (String.eqb_spec t tag) as [-> | Hne].
  - intros [= <-]. by exists attrs, children.
  - intros (k & c & q & -> & Hk & Hq)%find_first_Some. simpl.
    rewrite Hk. simpl.
    eapply Forall_lookup_1 in IH; [| exact Hk]. by apply IH.
Qed.

(** [append_children] puts the new nodes after the children of the element
    at the path. *)
Lemma append_children_node_at p new n tag attrs children :
  node_at p n = Some (SoupElem tag attrs children) →
  node_at p (append_children p new n)
  = Some (SoupElem tag attrs (children ++ new)).
Proof.
  revert n. induction p as [|i p IH]; intros n; simpl.
  - by intros [= ->].
  - destruct n as [s | t a cs]; [done |].
    destruct (cs !! i) as [c|] eqn:Hi; [| done]. simpl. intros Hc.
    rewrite list_lookup_alter, Hi. simpl. rewrite decide_True by done.
    simpl. by apply IH.
Qed.

Section DefaultLocations.
Context `{Externals}.

(** The section is where [find_tag] says, and [at_end_of] leaves its tag,
    attributes and children, and puts the new nodes after them. *)
Lemma at_end_of_section tag new n :
  has_section tag n →
  ∃ section attrs children,
    find_tag tag n = Some section
    ∧ node_at section n = Some (SoupElem tag attrs children)
    ∧ node_at section (at_end_of tag new n)
      = Some (SoupElem tag attrs (children ++ new)).
Proof.
  intros [section Hfind].
  destruct (find_tag_node_at _ _ _ Hfind) as (attrs & children & Hat).
  exists section, attrs, children. split; [done |]. split; [done |].
  unfold at_end_of. rewrite Hfind. by apply append_children_node_at.
Qed.

Lemma at_end_of_none tag new n : ¬ has_section tag n → at_end_of tag new n = n.
Proof.
  unfold has_section, at_end_of. destruct (find_tag tag n); [| done].
  intros []. by eexists.
Qed.

Lemma insert_into_at_end_of tag content elem :
  (insert_into tag content elem).1 = at_end_of tag (from_fragment content) elem.
Proof.
  unfold insert_into, at_end_of. destruct elem as [s | t a cs]; [done |].
  simpl negb. cbv iota. by destruct (find_tag tag (SoupElem t a cs)).
Qed.

Lemma insert_into_found tag content elem :
  (insert_into tag content elem).2 = true ↔ has_section tag elem.
Proof.
  unfold insert_into, has_section. destruct elem as [s | t a cs].
  - simpl. split; [done | by intros [? ?]].
  - simpl negb. cbv iota. destruct (find_tag tag (SoupElem t a cs)); simpl.
    + split; [by eexists | done].
    + split; [done | by intros [? ?]].
Qed.

Lemma insert_loop_nodes tag content elems :
  (insert_loop tag (Some content) elems).1
  = at_end_of tag (from_fragment content) <$> elems.
Proof.
  unfold insert_loop. simpl. rewrite map_map.
  apply map_ext. intros elem. apply insert_into_at_end_of.
Qed.

Lemma insert_loop_found tag content elems :
  (insert_loop tag (Some content) elems).2 = true
  ↔ Exists (has_section tag) elems.
Proof.
  unfold insert_loop. simpl. rewrite existsb_exists, Exists_exists. split.
  - intros (r & (elem & <- & Hin)%in_map_iff & Hr).
    exists elem. split; [by apply list_elem_of_In |].
    by apply (insert_into_found tag content).
  - intros (elem & Hin & Hsec). exists (insert_into tag content elem). split.
    + apply in_map, list_elem_of_In, Hin.
    + by apply insert_into_found.
Qed.

Lemma insert_loop_not_found tag content elems :
  Forall (λ elem, ¬ has_section tag elem) elems →
  insert_loop tag (Some content) elems = (elems, false).
Proof.
  intros Hnone.
  rewrite (surjective_pairing (insert_loop tag (Some content) elems)).
  f_equal.
  - rewrite insert_loop_nodes. rewrite <- (list_fmap_id elems) at 2.
    apply Forall_fmap_ext_1. eapply Forall_impl; [exact Hnone |].
    intros elem Helem. by apply at_end_of_none.
  - apply not_true_is_false. rewrite insert_loop_found.
    intros (elem & Hin & Hsec)%Exists_exists.
    rewrite Forall_forall in Hnone. by apply (Hnone elem).
Qed.

(** The content of [_process_dep_declarations] is the input with its
    markers taken out. *)
Lemma process_dep_declarations_content content type w content' js css :
  _process_dep_declarations content type w = Ok (content', js, css) →
  content' = (regex_sub COMPONENT_COMMENT_REGEX (λ _, "") 0 content).2.
Proof.
  unfold _process_dep_declarations.
  destruct (regex_sub COMPONENT_COMMENT_REGEX (λ _, "") 0 content)
    as [all_parts content_].
  repeat (match goal with
          | |- context [?r ≫= _] =>
              destruct r; [rewrite result_bind_Ok | done]
          | |- context [let '(_, _) := ?p in _] => destruct p
          end; cbv zeta).
  by intros [= <- _ _].
Qed.

(** A placeholder of the input is a placeholder of that content. *)
Lemma placeholder_of_input tok content type w content_ js css :
  tok = CSS_DEPENDENCY_PLACEHOLDER ∨ tok = JS_DEPENDENCY_PLACEHOLDER →
  _process_dep_declarations content type w = Ok (content_, js, css) →
  contains tok content = true → contains tok content_ = true.
Proof.
  intros Htok ->%process_dep_declarations_content.
  by apply markers_keep_placeholder.
Qed.

End DefaultLocations.



(** * Further properties of the code *)

(** ** The cache and its endpoint *)

Lemma append_eq_length a b c d :
  a +:+ b = c +:+ d → String.length b = String.length d → a = c ∧ b = d.
Proof.
  revert c. induction a as [|x a IH]; intros [|y c]; simpl.
  - done.
  - intros -> Hlen. simpl in Hlen. rewrite length_append in Hlen. lia.
  - intros <- Hlen. simpl in Hlen. rewrite length_append in Hlen. lia.
  - intros [= -> Heq] Hlen. by destruct (IH _ Heq Hlen) as [-> ->].
Qed.

(** The keys of two entries are the same only for the same hash and
    kind. *)
Lemma gen_cache_key_inj h1 t1 h2 t2 :
  t1 = "js" ∨ t1 = "css" → t2 = "js" ∨ t2 = "css" →
  _gen_cache_key h1 t1 = _gen_cache_key h2 t2 → h1 = h2 ∧ t1 = t2.
Proof.
  unfold _gen_cache_key. intros Ht1 Ht2 Hkey.
  assert (h1 +:+ ":" +:+ t1 = h2 +:+ ":" +:+ t2) as Hrest
    by (simpl in Hkey; by simplify_eq).
  clear Hkey. destruct Ht1 as [-> | ->], Ht2 as [-> | ->].
  - by apply append_eq_length in Hrest as [-> _].
  - rewrite <- (append_assoc h2 ":" "css") in Hrest.
    by apply append_eq_length in Hrest as [_ ?].
  - rewrite <- (append_assoc h1 ":" "css") in Hrest.
    by apply append_eq_length in Hrest as [_ ?].
  - by apply append_eq_length in Hrest as [-> _].
Qed.

Section CacheAndEndpoint.
Context `{Externals}.

Lemma cache_script_Ok cls script script_type w :
  script_type = "js" ∨ script_type = "css" →
  _cache_script cls script script_type w
  = Ok (set_cache w
          (<[_gen_cache_key (_hash_comp_cls cls) script_type := strip script]>
             (comp_media_cache w))).
Proof. by intros [-> | ->]. Qed.
End CacheAndEndpoint.



(** X2: [_cache_script] writes one entry.  The script of any other pair
    of class hash and kind is what it was before, and so is the answer of
    the endpoint for it. *)
Theorem cache_script_keeps_other_entries `{Externals} (cls : CompCls)
    (script script_type : string) (w w' : World)
    (comp_cls_hash script_type' : string) :
  _cache_script cls script script_type w = Ok w' →
  script_type' = "js" ∨ script_type' = "css" →
  (comp_cls_hash, script_type') ≠ (_hash_comp_cls cls, script_type) →
  comp_media_cache w' !! _gen_cache_key comp_cls_hash script_type'
  = comp_media_cache w !! _gen_cache_key comp_cls_hash script_type'
  ∧ ∀ method,
      cached_script_view method comp_cls_hash script_type' w'
      = cached_script_view method comp_cls_hash script_type' w.
Proof.
  intros Hcache Htype' Hother.
  assert (script_type = "js" ∨ script_type = "css") as Htype.
  { unfold _cache_script in Hcache.
    destruct (bool_decide (script_type = "js")) eqn:Ejs.
    - left. by apply bool_decide_eq_true in Ejs.
    - destruct (bool_decide (script_type = "css")) eqn:Ecss; [| done].
      right. by apply bool_decide_eq_true in Ecss. }
  rewrite cache_script_Ok in Hcache by done. injection Hcache as <-.
  assert (comp_media_cache
            (set_cache w
               (<[_gen_cache_key (_hash_comp_cls cls) script_type := strip script]>
                  (comp_media_cache w)))
          !! _gen_cache_key comp_cls_hash script_type'
          = comp_media_cache w !! _gen_cache_key comp_cls_hash script_type')
    as Hlookup.
  { simpl. apply lookup_insert_ne. intros Hkey.
    apply gen_cache_key_inj in Hkey as [Hh Ht]; [| done | done].
    apply Hother. by rewrite Hh, Ht. }
  split; [exact Hlookup |].
  intros method. unfold cached_script_view, InMemoryComponentMediaCache.get.
  by rewrite Hlookup.
Qed.

Lemma cache_script_keeps_other_entries_witness :
  let E := Sample.externals in
  ∃ w1 w2,
    _cache_script Examples.full_card "a{}" "css" Sample.empty_world = Ok w1
    ∧ _cache_script Examples.full_card "f()" "js" w1 = Ok w2
    ∧ cached_script_view "GET" "Card_d41d8c" "css" w2
      = Ok (MkHttpResponse 200 "a{}" (Some "text/css")).
Proof.
  intros E. do 2 eexists. split; [reflexivity |]. split; [reflexivity |].
  etrans.
  - refine (proj2 (cache_script_keeps_other_entries Examples.full_card "f()"
                     "js" _ _ "Card_d41d8c" "css" eq_refl (or_intror eq_refl) _)
              "GET").
    by intros [= ?].
  - reflexivity.
Defined.

(** ** The marker of a rendered component *)

Lemma all_chars_substring p n m s :
  all_chars p s = true → all_chars p (substring n m s) = true.
Proof.
  revert n m. induction s as [|c s IH]; intros n m Hs.
  - by destruct n, m.
  - simpl in Hs. apply andb_true_iff in Hs as [Hc Hs].
    destruct n as [|n]; simpl.
    + destruct m as [|m]; [done |]. simpl. by rewrite Hc, IH.
    + by apply IH.
Qed.

(** X3: the marker [_insert_component_comment] puts before the content
    of a component makes the round trip, for a class whose name and digest
    are made of word characters and an id made of word characters: the
    scan of [_process_dep_declarations] finds its data first, removes the
    marker and goes on with the content; the data parses back to the hash
    of the class and the id; and the class is registered under that hash.
    The cache is not touched. *)
Theorem inserted_comment_round_trip `{Externals} (content_ : string)
    (cls : CompCls) (component_id : string) (w : World) :
  all_chars is_word (__name__ cls) = true →
  all_chars is_word (md5_hexdigest (import_path cls)) = true →
  component_id ≠ "" → all_chars is_word component_id = true →
  let output := (_insert_component_comment content_ cls component_id w).1 in
  let w' := (_insert_component_comment content_ cls component_id w).2 in
  let scan := regex_sub COMPONENT_COMMENT_REGEX (λ _, "") 0 in
  ∃ data,
    scan output = (data :: (scan content_).1, (scan content_).2)
    ∧ SCRIPT_NAME_REGEX data = Some (_hash_comp_cls cls, component_id)
    ∧ comp_hash_mapping w' !! _hash_comp_cls cls = Some cls
    ∧ comp_media_cache w' = comp_media_cache w.
Proof.
  intros Hname Hdigest Hid Hword output w' scan.
  assert (all_chars is_word (_hash_comp_cls cls) = true) as Hhash.
  { unfold _hash_comp_cls. rewrite !all_chars_app, Hname. simpl.
    by apply all_chars_substring. }
  assert (_hash_comp_cls cls ≠ "") as Hne.
  { unfold _hash_comp_cls. destruct (__name__ cls); done. }
  destruct (marker_round_trip (_hash_comp_cls cls) component_id content_)
    as [Hscan Hdata]; [done | | | done | done |].
  - revert Hhash. apply all_chars_impl. intros c Hc.
    unfold is_cls_hash_char. by rewrite Hc.
  - revert Hhash. apply all_chars_impl. intros c Hc.
    by destruct (Ascii.eqb_spec c ".") as [-> |].
  - eexists. split; [exact Hscan |]. split; [exact Hdata |].
    split; [| done]. unfold w'. simpl. by rewrite lookup_insert_eq.
Qed.

Lemma inserted_comment_round_trip_witness :
  let E := Sample.externals in
  let scan := regex_sub COMPONENT_COMMENT_REGEX (λ _, "") 0 in
  scan (_insert_component_comment "<p>hi</p>" Examples.full_card "a1bc3f"
          Sample.empty_world).1
  = (["Card_d41d8c,a1bc3f"], "<p>hi</p>")
  ∧ SCRIPT_NAME_REGEX "Card_d41d8c,a1bc3f" = Some ("Card_d41d8c", "a1bc3f").
Proof.
  intros E scan.
  destruct (inserted_comment_round_trip (H := Sample.externals) "<p>hi</p>"
              Examples.full_card "a1bc3f" Sample.empty_world
              eq_refl eq_refl ltac:(done) eq_refl)
    as (data & Hscan & Hdata & _).
  pose proof Hscan as Hdata'. vm_compute in Hdata'.
  injection Hdata' as <-.
  split; [exact Hscan | exact Hdata].
Defined.

(** ** Errors of the aggregation *)

Lemma collect_comp_hashes_malformed all_parts seen_comp_hashes comp_hashes :
  Exists (λ part, SCRIPT_NAME_REGEX part = None) all_parts →
  collect_comp_hashes all_parts seen_comp_hashes comp_hashes
  = Raise (RuntimeError "Malformed dependencies data").
Proof.
  intros Hbad. revert seen_comp_hashes comp_hashes.
  induction Hbad as [part all_parts Hpart | part all_parts _ IH];
    intros seen_comp_hashes comp_hashes; simpl.
  - by rewrite Hpart.
  - destruct (SCRIPT_NAME_REGEX part) as [[comp_cls_hash id]|]; [| done].
    destruct (bool_decide (comp_cls_hash ∈ seen_comp_hashes)); apply IH.
Qed.

(** X4: [render_dependencies] refuses a type other than [document] and
    [fragment] before it looks at the content; for these two types, a
    marker whose data is not a class hash, a comma and an id stops it with
    the [RuntimeError] for malformed data, whatever the registry and the
    cache hold. *)
Theorem malformed_marker_is_fatal `{Externals} (content_ type : string)
    (w : World) :
  (type ≠ "document" → type ≠ "fragment" →
   _render_dependencies content_ type w
   = Raise (ValueError ("Invalid type '" +:+ type +:+ "'")))
  ∧ (type = "document" ∨ type = "fragment" →
     Exists (λ part, SCRIPT_NAME_REGEX part = None)
       (regex_sub COMPONENT_COMMENT_REGEX (λ _, "") 0 content_).1 →
     _render_dependencies content_ type w
     = Raise (RuntimeError "Malformed dependencies data")).
Proof.
  split.
  - intros Hdoc Hfrag. unfold _render_dependencies.
    by rewrite !bool_decide_false by done.
  - intros Htype Hbad.
    assert (_process_dep_declarations content_ type w
            = Raise (RuntimeError "Malformed dependencies data")) as Hprocess.
    { unfold _process_dep_declarations.
      destruct (regex_sub COMPONENT_COMMENT_REGEX (λ _, "") 0 content_)
        as [all_parts content'].
      simpl in Hbad. by rewrite collect_comp_hashes_malformed. }
    unfold _render_dependencies. rewrite Hprocess.
    by destruct Htype as [-> | ->].
Qed.

Lemma malformed_marker_is_fatal_witness :
  let E := Sample.externals in
  _render_dependencies "<p>hi</p>" "page" Sample.empty_world
  = Raise (ValueError "Invalid type 'page'")
  ∧ _render_dependencies ("<!-- _RENDERED table -->" +:+ "<p>hi</p>")
      "fragment" Sample.empty_world
    = Raise (RuntimeError "Malformed dependencies data").
Proof.
  intros E. split.
  - apply (proj1 (malformed_marker_is_fatal "<p>hi</p>" "page"
                    Sample.empty_world)); done.
  - apply (proj2 (malformed_marker_is_fatal _ "fragment" Sample.empty_world)).
    + by right.
    + apply Exists_cons_hd. reflexivity.
Defined.

(** ** What is inlined and what is left to load *)

Section Prepare.
Context `{Externals}.

Lemma get_script_tag_Ok script_type close cls w tag :
  (script_type = "js" ∧ close = "</script")
  ∨ (script_type = "css" ∧ close = "</style") →
  _get_script_tag script_type cls w = Ok tag →
  ∃ content_,
    get_script_content script_type cls w = Some content_
    ∧ contains close content_ = false
    ∧ tag = literal_block script_type content_.
Proof.
  unfold _get_script_tag.
  intros [[-> ->] | [-> ->]]; simpl;
    (destruct (get_script_content _ cls w) as [content_|]; simpl; [| done]);
    (destruct (contains _ content_) eqn:Hclose; simpl; [done |]);
    intros [= <-]; by exists content_.
Qed.

Lemma prepare_one_unregistered type w acc comp_cls_hash :
  comp_hash_mapping w !! comp_cls_hash = None →
  prepare_one type w acc comp_cls_hash = Raise (KeyError comp_cls_hash).
Proof. intros Hnone. unfold prepare_one, getitem. by rewrite Hnone. Qed.

Lemma prepare_loop_app type w acc l1 l2 :
  prepare_loop type w acc (l1 ++ l2)
  = prepare_loop type w acc l1 ≫= λ acc', prepare_loop type w acc' l2.
Proof.
  revert acc. induction l1 as [|h l1 IH]; intros acc; simpl; [done |].
  destruct (prepare_one type w acc h) as [acc'|e]; simpl; [apply IH | done].
Qed.

(** For a type other than [document], the loop fails only on a hash that
    is not registered. *)
Lemma prepare_loop_other type w acc hashes :
  type ≠ "document" → Forall (registered w) hashes →
  prepare_loop type w acc hashes
  = Ok (MkTagsAndUrls
          (to_load_js_urls acc ++ asset_urls "js" w hashes)
          (to_load_css_urls acc ++ asset_urls "css" w hashes)
          (inlined_js_tags acc) (inlined_css_tags acc)
          (loaded_js_urls acc) (loaded_css_urls acc)).
Proof.
  intros Htype Hin. revert acc.
  induction Hin as [|h hashes [cls Hcls] _ IH]; intros acc.
  - simpl. rewrite !app_nil_r. by destruct acc.
  - unfold asset_urls. simpl. unfold prepare_one, getitem.
    rewrite !Hcls. simpl. rewrite ?result_bind_Ok.
    rewrite bool_decide_false by done.
    unfold declared. simpl.
    destruct (_is_nonempty_str (js cls)), (_is_nonempty_str (css cls));
      simpl; rewrite ?result_bind_Ok; (etrans; [apply IH |]); simpl;
      by rewrite <- ?app_assoc.
Qed.

(** For a document, it also needs the scripts of the classes in the
    cache, without the closing tag of their block. *)
Lemma prepare_loop_document_registered w acc hashes :
  Forall (registered w) hashes → Forall (all_cached w) hashes →
  prepare_loop "document" w acc hashes
  = Ok (MkTagsAndUrls
          (to_load_js_urls acc) (to_load_css_urls acc)
          (inlined_js_tags acc ++ asset_blocks "js" w hashes)
          (inlined_css_tags acc ++ asset_blocks "css" w hashes)
          (loaded_js_urls acc ++ asset_urls "js" w hashes)
          (loaded_css_urls acc ++ asset_urls "css" w hashes)).
Proof.
  intros Hin Hca. revert acc.
  induction Hin as [|h hashes [cls Hcls] _ IH]; intros acc.
  - simpl. rewrite !app_nil_r. by destruct acc.
  - apply Forall_cons in Hca as [Hh Hca]. specialize (IH Hca).
    destruct (Hh cls Hcls) as [Hjs Hcss].
    unfold asset_blocks, asset_urls. simpl. rewrite Hcls. simpl.
    unfold prepare_one, getitem. rewrite Hcls. rewrite result_bind_Ok.
    rewrite bool_decide_true by done.
    unfold cached, declared in Hjs, Hcss. simpl in Hjs, Hcss.
    unfold declared. simpl.
    destruct (_is_nonempty_str (js cls)) eqn:Ejs.
    + destruct (Hjs eq_refl) as (cjs & Hgjs & Hcjs).
      rewrite (get_script_tag_js _ _ _ Hgjs Hcjs), Hgjs. simpl.
      destruct (_is_nonempty_str (css cls)) eqn:Ecss.
      * destruct (Hcss eq_refl) as (ccss & Hgcss & Hccss).
        rewrite (get_script_tag_css _ _ _ Hgcss Hccss), Hgcss. simpl.
        etrans; [apply IH |]. simpl. by rewrite <- !app_assoc.
      * etrans; [apply IH |]. simpl. by rewrite <- !app_assoc.
    + simpl. destruct (_is_nonempty_str (css cls)) eqn:Ecss.
      * destruct (Hcss eq_refl) as (ccss & Hgcss & Hccss).
        rewrite (get_script_tag_css _ _ _ Hgcss Hccss), Hgcss. simpl.
        etrans; [apply IH |]. simpl. by rewrite <- !app_assoc.
      * etrans; [apply IH |]. done.
Qed.

(** What the success of the loop tells about the hashes. *)
Lemma prepare_loop_Ok type w acc hashes r :
  prepare_loop type w acc hashes = Ok r →
  Forall (registered w) hashes
  ∧ (type = "document" → Forall (all_cached w) hashes).
Proof.
  revert acc. induction hashes as [|h hashes IH]; intros acc; simpl.
  - intros _. split; [constructor | intros _; constructor].
  - destruct (prepare_one type w acc h) as [acc'|e] eqn:Hone; simpl; [| done].
    intros [Hreg Hca]%IH. unfold prepare_one, getitem in Hone.
    destruct (comp_hash_mapping w !! h) as [cls|] eqn:Hcls; [| done].
    rewrite result_bind_Ok in Hone.
    split; [constructor; [by exists cls | done] |].
    intros ->. constructor; [| by apply Hca].
    intros cls' Hcls'. rewrite Hcls in Hcls'. injection Hcls' as <-.
    rewrite bool_decide_true in Hone by done.
    unfold cached, declared. simpl.
    destruct (_is_nonempty_str (js cls)) eqn:Ejs;
      destruct (_is_nonempty_str (css cls)) eqn:Ecss.
    + destruct (_get_script_tag "js" cls w) as [tjs|] eqn:Hjs; [| done].
      rewrite result_bind_Ok in Hone. simpl in Hone.
      destruct (_get_script_tag "css" cls w) as [tcss|] eqn:Hcss; [| done].
      apply (get_script_tag_Ok _ "</script") in Hjs
        as (cjs & ? & ? & _); [| by left].
      apply (get_script_tag_Ok _ "</style") in Hcss
        as (ccss & ? & ? & _); [| by right].
      split; intros _; by eexists.
    + destruct (_get_script_tag "js" cls w) as [tjs|] eqn:Hjs; [| done].
      apply (get_script_tag_Ok _ "</script") in Hjs
        as (cjs & ? & ? & _); [| by left].
      split; [intros _; by eexists | done].
    + simpl in Hone.
      destruct (_get_script_tag "css" cls w) as [tcss|] eqn:Hcss; [| done].
      apply (get_script_tag_Ok _ "</style") in Hcss
        as (ccss & ? & ? & _); [| by right].
      split; [done | intros _; by eexists].
    + done.
Qed.
End Prepare.

(** X5: when [_prepare_tags_and_urls] returns, every hash is registered.
    For a document it leaves nothing to load: each inlined script and style
    is a literal block of the cached content, which has no closing tag of
    its block in it, and its endpoint URL is listed as loaded.  For a
    fragment (any other type) it inlines nothing and lists nothing as
    loaded: the endpoint URLs are left to load. *)
Theorem prepare_tags_and_urls_shape `{Externals} (data : list string)
    (type : string) (w : World) (r : TagsAndUrls) :
  _prepare_tags_and_urls data type w = Ok r →
  Forall (registered w) data
  ∧ (type = "document" →
     Forall (all_cached w) data
     ∧ r = MkTagsAndUrls [] []
             (asset_blocks "js" w data) (asset_blocks "css" w data)
             (asset_urls "js" w data) (asset_urls "css" w data))
  ∧ (type ≠ "document" →
     r = MkTagsAndUrls (asset_urls "js" w data) (asset_urls "css" w data)
           [] [] [] []).
Proof.
  unfold _prepare_tags_and_urls. intros Hr.
  destruct (prepare_loop_Ok _ _ _ _ _ Hr) as [Hreg Hca].
  split; [done |]. split.
  - intros ->. split; [by apply Hca |].
    rewrite prepare_loop_document_registered in Hr by auto.
    by injection Hr as <-.
  - intros Htype. rewrite prepare_loop_other in Hr by done.
    by injection Hr as <-.
Qed.

Lemma prepare_tags_and_urls_shape_witness :
  let E := Sample.externals in
  let w := st_world (render (inl Examples.full_card) Sample.nested_args
                       Sample.empty_world).2 in
  _prepare_tags_and_urls ["Card_d41d8c"] "document" w
  = Ok (MkTagsAndUrls [] []
          ["<script>console.log(1)</script>"] ["<style>body{color:red}</style>"]
          ["/cache/Card_d41d8c.js"] ["/cache/Card_d41d8c.css"])
  ∧ _prepare_tags_and_urls ["Card_d41d8c"] "fragment" w
    = Ok (MkTagsAndUrls ["/cache/Card_d41d8c.js"] ["/cache/Card_d41d8c.css"]
            [] [] [] []).
Proof.
  intros E w.
  assert (∃ r, _prepare_tags_and_urls ["Card_d41d8c"] "document" w = Ok r)
    as [r1 H1] by (eexists; reflexivity).
  assert (∃ r, _prepare_tags_and_urls ["Card_d41d8c"] "fragment" w = Ok r)
    as [r2 H2] by (eexists; reflexivity).
  split.
  - rewrite H1. f_equal.
    exact (proj2 (proj1 (proj2 (prepare_tags_and_urls_shape _ _ _ _ H1))
                    eq_refl)).
  - rewrite H2. f_equal.
    apply (proj2 (proj2 (prepare_tags_and_urls_shape _ _ _ _ H2))). done.
Defined.

(** X6: a marker for a class hash that is not in the registry (the
    registry is process-wide, and holds a class from its first render on)
    stops [render_dependencies] with the [KeyError] of the first such
    hash: for a fragment always, for a document when the scripts of the
    classes before it are in the cache. *)
Theorem unregistered_component_is_fatal `{Externals} (content_ : string)
    (w : World) (before : list string) (comp_cls_hash : string)
    (after : list string) :
  collect_comp_hashes
    (regex_sub COMPONENT_COMMENT_REGEX (λ _, "") 0 content_).1 ∅ []
  = Ok (before ++ comp_cls_hash :: after) →
  Forall (registered w) before →
  comp_hash_mapping w !! comp_cls_hash = None →
  _render_dependencies content_ "fragment" w = Raise (KeyError comp_cls_hash)
  ∧ (Forall (all_cached w) before →
     _render_dependencies content_ "document" w
     = Raise (KeyError comp_cls_hash)).
Proof.
  intros Hhashes Hbefore Hnone.
  assert (∀ type,
            (∃ acc, prepare_loop type w (MkTagsAndUrls [] [] [] [] [] []) before
                    = Ok acc) →
            _process_dep_declarations content_ type w
            = Raise (KeyError comp_cls_hash)) as Hprocess.
  { intros type [acc Hacc]. unfold _process_dep_declarations.
    destruct (regex_sub COMPONENT_COMMENT_REGEX (λ _, "") 0 content_)
      as [all_parts content'].
    simpl in Hhashes. rewrite Hhashes, result_bind_Ok.
    unfold _prepare_tags_and_urls. rewrite prepare_loop_app, Hacc.
    rewrite result_bind_Ok. simpl.
    by rewrite prepare_one_unregistered. }
  split.
  - unfold _render_dependencies. simpl negb. cbv iota.
    rewrite Hprocess; [done |].
    eexists. by apply prepare_loop_other.
  - intros Hcached. unfold _render_dependencies. simpl negb. cbv iota.
    rewrite Hprocess; [done |].
    eexists. by apply prepare_loop_document_registered.
Qed.

Lemma unregistered_component_is_fatal_witness :
  let E := Sample.externals in
  _render_dependencies
    (COMPONENT_DEPS_COMMENT "Card_d41d8c,a1bc3f" +:+ "<p>hi</p>") "fragment"
    Sample.empty_world
  = Raise (KeyError "Card_d41d8c").
Proof.
  intros E.
  apply (proj1 (unregistered_component_is_fatal
                  (COMPONENT_DEPS_COMMENT "Card_d41d8c,a1bc3f" +:+ "<p>hi</p>")
                  Sample.empty_world [] "Card_d41d8c" []
                  eq_refl (Forall_nil_2 _) eq_refl)).
Defined.

(** ** The tags of the media files *)

Lemma filter_all {A} (P : A → Prop) `{∀ x, Decision (P x)} (l : list A) :
  Forall P l → filter P l = l.
Proof.
  induction 1 as [|x l Hx _ IH]; [done |].
  by rewrite filter_cons_True, IH.
Qed.

Lemma Forall2_impl_elem {A B} (P Q : A → B → Prop) l k :
  Forall2 P l k → (∀ x y, y ∈ k → P x y → Q x y) → Forall2 Q l k.
Proof.
  induction 1 as [|x y l k Hxy _ IH]; intros Himpl; constructor.
  - apply Himpl; [left | done].
  - apply IH. intros x' y' Hin. apply Himpl. by right.
Qed.

Lemma first_seen_NoDup l : NoDup l → first_seen l = l.
Proof.
  induction 1 as [|x l Hx _ IH]; [done |].
  simpl. f_equal. rewrite IH. apply filter_all, Forall_forall.
  by intros y Hy ->.
Qed.

Section MediaTags.
Context `{Externals}.

Lemma first_tags_lookup script_type tags url :
  first_tags script_type tags !! url = first_with_url script_type tags url.
Proof.
  unfold first_tags, first_with_url.
  induction tags as [|tag tags IH]; simpl; [done |].
  case_bool_decide as Hurl.
  - by rewrite Hurl, lookup_insert_eq.
  - by rewrite lookup_insert_ne.
Qed.

Lemma postprocess_loop_step script_type tag tags urls tags_by_url :
  has_url script_type tag →
  postprocess_loop script_type (tag :: tags) urls tags_by_url
  = if bool_decide (is_Some (tags_by_url !! tag_url script_type tag))
    then postprocess_loop script_type tags urls tags_by_url
    else postprocess_loop script_type tags (urls ++ [tag_url script_type tag])
           (<[tag_url script_type tag := tag]> tags_by_url).
Proof.
  unfold has_url, tag_url, url_of, url_attr. intros Hurl. simpl.
  destruct (from_fragment (strip tag)) as [|node nodes]; [done |].
  by rewrite Hurl.
Qed.

Lemma postprocess_loop_acc script_type tags urls tags_by_url :
  Forall (has_url script_type) tags →
  postprocess_loop script_type tags urls tags_by_url
  = Ok (urls ++ filter (λ url, tags_by_url !! url = None)
                  (first_seen (tag_url script_type <$> tags)),
        tags_by_url ∪ first_tags script_type tags).
Proof.
  intros Htags. revert urls tags_by_url.
  induction Htags as [|tag tags Htag _ IH]; intros urls tags_by_url.
  - simpl. by rewrite app_nil_r, (right_id_L ∅ (∪)).
  - rewrite postprocess_loop_step by done. simpl.
    case_bool_decide as Hseen.
    + rewrite IH. f_equal. f_equal; [f_equal |].
      * rewrite filter_cons_False
          by (intros Hnone; rewrite Hnone in Hseen; by destruct Hseen).
        symmetry. apply list_filter_filter_l. intros url Hurl ->.
        rewrite Hurl in Hseen. by destruct Hseen.
      * destruct Hseen as [tag' Hseen]. apply map_eq. intros url.
        rewrite !lookup_union.
        destruct (decide (url = tag_url script_type tag)) as [-> |].
        -- rewrite lookup_insert_eq, Hseen.
           by destruct (first_tags script_type tags !! _).
        -- by rewrite lookup_insert_ne.
    + apply eq_None_not_Some in Hseen.
      rewrite IH, <- app_assoc. f_equal. f_equal; [f_equal |].
      * simpl. rewrite filter_cons_True by done. f_equal.
        rewrite list_filter_filter. apply list_filter_iff. intros url.
        destruct (decide (url = tag_url script_type tag)) as [-> |].
        -- rewrite lookup_insert_eq. naive_solver.
        -- rewrite lookup_insert_ne by done. naive_solver.
      * rewrite <- insert_union_l. by rewrite insert_union_r.
Qed.

Lemma mapM_getitem (m : gmap string string) (f : string → option string)
    urls :
  (∀ url, m !! url = f url) → Forall (λ url, is_Some (f url)) urls →
  ∃ tags,
    mapM (getitem m) urls = Ok tags
    ∧ Forall2 (λ tag url, f url = Some tag) tags urls.
Proof.
  intros Hm. induction 1 as [|url urls [tag Htag] _ (tags & IH & Htags)].
  - by exists [].
  - exists (tag :: tags). split; [| by constructor].
    simpl.
    assert (getitem m url = Ok tag) as ->
      by (unfold getitem; by rewrite Hm, Htag).
    rewrite !result_bind_Ok, IH. done.
Qed.
End MediaTags.

Section MediaTagsAgain.
Context `{Externals}.

Lemma postprocess_media_tags_run script_type tags :
  Forall (has_url script_type) tags →
  _postprocess_media_tags script_type tags
  = (mapM (getitem (first_tags script_type tags))
       (first_seen (tag_url script_type <$> tags))
     ≫= λ tags', Ok (tags', first_seen (tag_url script_type <$> tags))).
Proof.
  intros Htags. unfold _postprocess_media_tags.
  rewrite postprocess_loop_acc by done. rewrite result_bind_Ok.
  cbv beta iota. simpl app. rewrite (left_id_L ∅ (∪)).
  rewrite filter_all; [done |].
  apply Forall_forall. intros url _. apply lookup_empty.
Qed.

Lemma first_with_url_found script_type tags :
  Forall (λ url, is_Some (first_with_url script_type tags url))
    (first_seen (tag_url script_type <$> tags)).
Proof.
  apply Forall_forall. intros url Hurl.
  apply elem_of_first_seen, list_elem_of_fmap in Hurl as (tag & -> & Hin).
  unfold first_with_url.
  destruct (find _ tags) as [tag'|] eqn:Hfind; [by eexists |].
  apply list_elem_of_In in Hin.
  eapply find_none in Hfind; [| exact Hin].
  simpl in Hfind. by rewrite bool_decide_true in Hfind.
Qed.

(** Among tags with different URLs, the first tag with the URL of a tag is
    that tag. *)
Lemma first_with_url_own script_type tags tags' :
  NoDup (tag_url script_type <$> tags) →
  Forall2 (λ tag url, first_with_url script_type tags url = Some tag)
    tags' (tag_url script_type <$> tags) →
  tags' = tags.
Proof.
  revert tags'. induction tags as [|tag tags IH]; intros tags' Hno Hfirst.
  - by inversion Hfirst.
  - simpl in Hno, Hfirst. apply NoDup_cons in Hno as [Hnotin Hno].
    inversion Hfirst as [|tag0 url0 tags0 urls0 Hhead Htail]; subst.
    unfold first_with_url in Hhead. simpl in Hhead.
    rewrite bool_decide_true in Hhead by done. injection Hhead as <-.
    f_equal. apply IH; [done |].
    eapply Forall2_impl_elem; [exact Htail |]. intros tag' url' Hin Htag'.
    unfold first_with_url in *. simpl in Htag'.
    rewrite bool_decide_false in Htag'; [done |].
    intros Heq. apply Hnotin. by rewrite Heq.
Qed.
End MediaTagsAgain.

(** X7: given tags that all have a URL (the [src] of a script, the [href]
    of a link), [_postprocess_media_tags] returns the URLs in the order of
    their first appearance, each once, and for each URL the first tag that
    has it; the lookup of the tags it kept never fails.  Running it on its
    own result changes nothing. *)
Theorem postprocess_media_tags_first_seen `{Externals} (script_type : string)
    (tags : list string) :
  Forall (has_url script_type) tags →
  let urls := first_seen (tag_url script_type <$> tags) in
  ∃ tags',
    _postprocess_media_tags script_type tags = Ok (tags', urls)
    ∧ NoDup urls
    ∧ Forall2 (λ tag url, first_with_url script_type tags url = Some tag)
        tags' urls
    ∧ _postprocess_media_tags script_type tags' = Ok (tags', urls).
Proof.
  intros Htags urls. subst urls.
  destruct (mapM_getitem (first_tags script_type tags)
              (first_with_url script_type tags) _
              (first_tags_lookup script_type tags)
              (first_with_url_found script_type tags))
    as (tags' & Hmap & Hfirst).
  exists tags'. split; [by rewrite postprocess_media_tags_run, Hmap |].
  split; [apply NoDup_first_seen |]. split; [done |].
  assert (tag_url script_type <$> tags'
          = first_seen (tag_url script_type <$> tags)) as Hurls.
  { clear -Hfirst. induction Hfirst as [|tag url tags' urls Hfind _ IH];
      [done |].
    simpl. f_equal; [| done]. unfold first_with_url in Hfind.
    apply find_some in Hfind as [_ Hurl]. by apply bool_decide_eq_true in Hurl. }
  assert (Forall (has_url script_type) tags') as Htags'.
  { clear -Hfirst Htags. induction Hfirst as [|tag url tags' urls Hfind _ IH];
      constructor; [| done].
    unfold first_with_url in Hfind. apply find_some in Hfind as [Hin _].
    rewrite Forall_forall in Htags. by apply Htags, list_elem_of_In. }
  assert (NoDup (tag_url script_type <$> tags')) as Hno
    by (rewrite Hurls; apply NoDup_first_seen).
  rewrite postprocess_media_tags_run by done.
  rewrite (first_seen_NoDup _ Hno).
  destruct (mapM_getitem (first_tags script_type tags')
              (first_with_url script_type tags') (tag_url script_type <$> tags')
              (first_tags_lookup script_type tags'))
    as (tags'' & Hmap' & Hfirst').
  { rewrite <- (first_seen_NoDup _ Hno). apply first_with_url_found. }
  rewrite Hmap', result_bind_Ok, Hurls. do 2 f_equal.
  by apply (first_with_url_own script_type).
Qed.

Lemma postprocess_media_tags_first_seen_witness :
  let E := Sample.externals in
  let a := "<script src=" +:+ dq +:+ "/a.js" +:+ dq +:+ "></script>" in
  let a' := "<script defer src=" +:+ dq +:+ "/a.js" +:+ dq +:+ "></script>" in
  let b := "<script src=" +:+ dq +:+ "/b.js" +:+ dq +:+ "></script>" in
  Forall (has_url "js") [a; b; a'; b]
  ∧ _postprocess_media_tags "js" [a; b; a'; b] = Ok ([a; b], ["/a.js"; "/b.js"]).
Proof.
  intros E a a' b.
  assert (Forall (has_url "js") [a; b; a'; b]) as Htags
    by (repeat constructor).
  split; [exact Htags |].
  destruct (postprocess_media_tags_first_seen "js" [a; b; a'; b] Htags)
    as (tags' & Hrun & _ & Hfirst & _).
  rewrite Hrun. do 2 f_equal.
  vm_compute in Hfirst.
  inversion Hfirst as [|? ? ? ? Ha Hrest]; subst.
  inversion Hrest as [|? ? ? ? Hb Hnil]; subst.
  inversion Hnil; subst.
  injection Ha as <-. injection Hb as <-. reflexivity.
Defined.

Section MediaTagErrors.
Context `{Externals}.

Lemma postprocess_loop_bad script_type before tag after urls tags_by_url :
  Forall (has_url script_type) before → ¬ has_url script_type tag →
  ∃ err,
    postprocess_loop script_type (before ++ tag :: after) urls tags_by_url
    = Raise err
    ∧ exn_class err
      = if bool_decide (from_fragment (strip tag) = [])
        then "IndexError" else "RuntimeError".
Proof.
  intros Hbefore Hbad. revert urls tags_by_url.
  induction Hbefore as [|tag' before Htag' _ IH]; intros urls tags_by_url.
  - simpl. unfold has_url, url_of, url_attr in Hbad.
    destruct (from_fragment (strip tag)) as [|node nodes]; [by eexists |].
    apply not_true_is_false in Hbad. rewrite Hbad. by eexists.
  - rewrite <- app_comm_cons, postprocess_loop_step by done.
    destruct (bool_decide (is_Some _)); apply IH.
Qed.
End MediaTagErrors.

(** X8: the first tag that has no URL stops [_postprocess_media_tags]:
    with the [RuntimeError] about the missing attribute when the tag parses
    to a node, with an [IndexError] when it parses to nothing. *)
Theorem media_tag_without_url_is_fatal `{Externals} (script_type : string)
    (before : list string) (tag : string) (after : list string) :
  Forall (has_url script_type) before → ¬ has_url script_type tag →
  ∃ err,
    _postprocess_media_tags script_type (before ++ tag :: after) = Raise err
    ∧ exn_class err
      = if bool_decide (from_fragment (strip tag) = [])
        then "IndexError" else "RuntimeError".
Proof.
  intros Hbefore Hbad. unfold _postprocess_media_tags.
  destruct (postprocess_loop_bad script_type before tag after [] ∅ Hbefore Hbad)
    as (err & -> & Hclass).
  by exists err.
Qed.

Lemma media_tag_without_url_is_fatal_witness :
  let E := Sample.externals in
  let a := "<script src=" +:+ dq +:+ "/a.js" +:+ dq +:+ "></script>" in
  ∃ err1 err2,
    _postprocess_media_tags "js" [a; "<script>f()</script>"] = Raise err1
    ∧ exn_class err1 = "RuntimeError"
    ∧ _postprocess_media_tags "js" [a; "  "] = Raise err2
    ∧ exn_class err2 = "IndexError".
Proof.
  intros E a.
  destruct (media_tag_without_url_is_fatal "js" [a] "<script>f()</script>" [])
    as (err1 & Hrun1 & Hclass1); [by repeat constructor | done |].
  destruct (media_tag_without_url_is_fatal "js" [a] "  " [])
    as (err2 & Hrun2 & Hclass2); [by repeat constructor | done |].
  exists err1, err2. split; [exact Hrun1 |]. split; [exact Hclass1 |].
  split; [exact Hrun2 | exact Hclass2].
Defined.

(** ** What a render leaves behind *)

Ltac run_bind :=
  repeat (rewrite bind_run;
          unfold get_self, set_render_stack, lift, get_world, put_world,
            raise; simpl).

Section RenderMarks.
Context `{Externals}.

Lemma render_impl_marks render_template cls a self w out st :
  _render_impl render_template cls a (MkRState self w) = (Ok out, st) →
  let marker :=
    COMPONENT_DEPS_COMMENT (_hash_comp_cls cls +:+ "," +:+ component_id self) in
  ∃ html w',
    st_world st
    = set_mapping w' (<[_hash_comp_cls cls := cls]> (comp_hash_mapping w'))
    ∧ (if arg_render_dependencies a
       then _render_dependencies (marker +:+ html) (arg_type a) (st_world st)
       else Ok (marker +:+ html))
      = Ok out.
Proof.
  unfold _render_impl. run_bind.
  destruct (_validate_inputs cls _ _ _) as [[]|e0]; simpl; [|done]. run_bind.
  destruct (get_context_data cls _ _) as [context_data|e1]; simpl; [| done].
  run_bind.
  destruct (_validate_outputs cls context_data) as [[]|e2]; simpl; [| done].
  run_bind.
  destruct (cache_inlined_js cls _ w) as [w1|e3]; simpl; [| done]. run_bind.
  destruct (cache_inlined_css cls _ w1) as [w2|e4]; simpl; [| done].
  run_bind. unfold _prepare_template. run_bind.
  destruct (_get_template cls _) as [template_|e5]; simpl; [| done].
  destruct (_dc_patched template_) as [[]|]; simpl; [| done | done]. run_bind.
  destruct (on_render_before cls _ _) as [[]|e6]; simpl; [| done]. run_bind.
  match goal with
  | |- context [render_template ?t ?c ?st] =>
      destruct (render_template t c st) as [[html|e7] st7]
  end; simpl; [| done]. run_bind.
  destruct (on_render_after cls _ _ html) as [new_output|e8]; simpl; [| done].
  run_bind. unfold postprocess_component_html, _insert_component_comment.
  destruct (arg_render_dependencies a); simpl; run_bind.
  - match goal with
    | |- context [_render_dependencies ?c ?t ?w] =>
        destruct (_render_dependencies c t w) as [final|e9] eqn:Hdeps
    end; simpl; run_bind; [| done].
    intros [= <- <-]. simpl.
    exists (default html new_output), (st_world st7). by rewrite Hdeps.
  - intros [= <- <-]. simpl.
    by exists (default html new_output), (st_world st7).
Qed.
End RenderMarks.

Section RenderMarksAll.
Context `{Externals}.

Lemma render_marks cls a self w out st :
  _render cls a (MkRState self w) = (Ok out, st) →
  let marker :=
    COMPONENT_DEPS_COMMENT (_hash_comp_cls cls +:+ "," +:+ component_id self) in
  comp_hash_mapping (st_world st) !! _hash_comp_cls cls = Some cls
  ∧ ∃ html,
      if arg_render_dependencies a
      then _render_dependencies (marker +:+ html) (arg_type a) (st_world st)
           = Ok out
      else out = marker +:+ html.
Proof.
  rewrite _render_unfold. unfold _render_around. rewrite bind_run.
  unfold get_self, try_except; simpl.
  destruct (_render_impl _ cls a _) as [[out'|err] st'] eqn:Himpl; [| done].
  intros [= <- <-].
  apply render_impl_marks in Himpl as (html & w' & Hworld & Hout).
  split.
  - rewrite Hworld. simpl. by rewrite lookup_insert_eq.
  - exists html.
    destruct (arg_render_dependencies a); [done | by injection Hout].
Qed.
End RenderMarksAll.



(** ** The process-wide state during a render *)

Lemma CompCls_nested_ind (P : CompCls → Prop) :
  (∀ cls,
     Forall (λ node,
               match node with
               | ComponentNode _ (Some c) _ _ _ _ _ => P c
               | _ => True
               end) (nodelist cls) →
     P cls) →
  ∀ cls, P cls.
Proof.
  intros Hstep. fix IH 1. intros cls. apply Hstep.
  destruct cls as [? ? ? ? ? ? ? ? ? ? ? ? ? ? ? nodes]. simpl.
  induction nodes as [|node nodes IHnodes]; constructor.
  - destruct node as [s | name [c|] ? ? ? ? ?]; [done | apply IH | done].
  - exact IHnodes.
Qed.

Section WorldGrows.
Context `{Externals}.

Lemma world_le_refl w : world_le w w.
Proof. by split. Qed.

Lemma world_le_trans w1 w2 w3 :
  world_le w1 w2 → world_le w2 w3 → world_le w1 w3.
Proof. intros [? ?] [? ?]. split; by etrans. Qed.

Lemma world_le_set_cache w key value :
  comp_media_cache w !! key = None →
  world_le w (set_cache w (<[key := value]> (comp_media_cache w))).
Proof. intros Hnone. split; simpl; [by apply insert_subseteq | done]. Qed.

Lemma cache_inlined_js_grows cls content_ w w' :
  cache_inlined_js cls content_ w = Ok w' → world_le w w'.
Proof.
  rewrite cache_inlined_js_eq. intros [= <-].
  destruct (_is_nonempty_str (js cls)); simpl; [| apply world_le_refl].
  case_bool_decide as Hkey; simpl; [apply world_le_refl |].
  apply world_le_set_cache. by apply eq_None_not_Some.
Qed.

Lemma cache_inlined_css_grows cls content_ w w' :
  cache_inlined_css cls content_ w = Ok w' → world_le w w'.
Proof.
  rewrite cache_inlined_css_eq. intros [= <-].
  destruct (_is_nonempty_str (js cls)); simpl; [| apply world_le_refl].
  case_bool_decide as Hkey; simpl; [apply world_le_refl |].
  apply world_le_set_cache. by apply eq_None_not_Some.
Qed.

Lemma insert_component_comment_grows content_ cls component_id w :
  world_le w (_insert_component_comment content_ cls component_id w).2.
Proof.
  split; simpl; [done |]. rewrite dom_insert. set_solver.
Qed.

Lemma grows_ret {A} (a : A) : grows (mret a).
Proof. intros st. apply world_le_refl. Qed.

Lemma grows_raise {A} (e : exn) : grows (raise (A := A) e).
Proof. intros st. apply world_le_refl. Qed.

Lemma grows_bind {A B} (m : M A) (k : A → M B) :
  grows m → (∀ a, grows (k a)) → grows (m ≫= k).
Proof.
  intros Hm Hk st. unfold mbind, M_bind. specialize (Hm st).
  destruct (m st) as [[a|e] st']; simpl in *; [| done].
  eapply world_le_trans; [exact Hm | apply Hk].
Qed.

Lemma grows_on_instance {A} component (m : M A) :
  grows m → grows (on_instance component m).
Proof.
  intros Hm st. unfold on_instance.
  specialize (Hm (MkRState component (st_world st))).
  by destruct (m _).
Qed.

Lemma grows_ComponentNode_render rc name cls args kwargs fills node_id
    isolated context :
  (∀ a, grows (rc a)) →
  grows
    (ComponentNode_render rc name cls args kwargs fills node_id isolated context).
Proof.
  intros Hrc. unfold ComponentNode_render.
  destruct (is_extracting_fill context); [apply grows_ret |].
  destruct cls; [by apply grows_on_instance | apply grows_raise].
Qed.

Lemma grows_render_nodelist render_cls context nodes :
  Forall (λ node,
            match node with
            | ComponentNode _ (Some c) _ _ _ _ _ => ∀ a, grows (render_cls c a)
            | _ => True
            end) nodes →
  grows (render_nodelist render_cls context nodes).
Proof.
  induction 1 as [|node nodes Hnode _ IH]; simpl; [apply grows_ret |].
  apply grows_bind.
  - destruct node as [s | name [c|] ? ? ? ? ?]; [apply grows_ret | |].
    + by apply grows_ComponentNode_render.
    + apply grows_ComponentNode_render. intros a. apply grows_ret.
  - intros bit. apply grows_bind; [done |].
    intros rest. apply grows_ret.
Qed.

Lemma render_impl_grows render_template cls a :
  (∀ t c, grows (render_template t c)) →
  grows (_render_impl render_template cls a).
Proof.
  intros Hrt [self w]. unfold _render_impl. simpl st_world at 1. run_bind.
  destruct (_validate_inputs cls _ _ _) as [[]|e0]; simpl;
    [| apply world_le_refl]. run_bind.
  destruct (get_context_data cls _ _) as [context_data|e1]; simpl;
    [| apply world_le_refl]. run_bind.
  destruct (_validate_outputs cls context_data) as [[]|e2]; simpl;
    [| apply world_le_refl]. run_bind.
  destruct (cache_inlined_js cls _ w) as [w1|e3] eqn:Hjs; simpl;
    [| apply world_le_refl]. run_bind.
  apply cache_inlined_js_grows in Hjs.
  destruct (cache_inlined_css cls _ w1) as [w2|e4] eqn:Hcss; simpl;
    [| done]. run_bind.
  apply cache_inlined_css_grows in Hcss.
  assert (world_le w w2) as Hw2 by (by eapply world_le_trans).
  unfold _prepare_template. run_bind.
  destruct (_get_template cls _) as [template_|e5]; simpl; [| done].
  destruct (_dc_patched template_) as [[]|]; simpl; [| done | done]. run_bind.
  destruct (on_render_before cls _ _) as [[]|e6]; simpl; [| done]. run_bind.
  match goal with
  | |- context [render_template ?t ?c ?st] =>
      pose proof (Hrt t c st) as Hgrow;
      destruct (render_template t c st) as [[html|e7] st7]
  end; simpl in *; [| by eapply world_le_trans]. run_bind.
  assert (world_le w (st_world st7)) as Hw7 by (by eapply world_le_trans).
  destruct (on_render_after cls _ _ html) as [new_output|e8]; simpl; [| done].
  run_bind. unfold postprocess_component_html.
  match goal with
  | |- context [_insert_component_comment ?c ?k ?i ?w] =>
      pose proof (insert_component_comment_grows c k i w) as Hins;
      destruct (_insert_component_comment c k i w) as [output w9]
  end. simpl in Hins.
  assert (world_le w w9) as Hw9 by (by eapply world_le_trans).
  destruct (arg_render_dependencies a); simpl; run_bind; [| done].
  destruct (_render_dependencies output (arg_type a) w9) as [final|e9];
    simpl; run_bind; done.
Qed.

Lemma render_grows cls a : grows (_render cls a).
Proof.
  revert a. induction cls as [cls IH] using CompCls_nested_ind.
  intros a st. rewrite _render_unfold. unfold _render_around.
  rewrite bind_run. unfold get_self, try_except. simpl.
  pose proof (render_impl_grows
                (λ _ context, render_nodelist _render context (nodelist cls))
                cls a) as Himpl.
  specialize (Himpl (λ _ c, grows_render_nodelist _render c (nodelist cls) IH) st).
  by destruct (_render_impl _ cls a st) as [[out|err] st'].
Qed.
End WorldGrows.


Section RenderCaches.
Context `{Externals}.

Lemma render_impl_caches render_template cls a self w out st :
  (∀ t c, grows (render_template t c)) →
  _render_impl render_template cls a (MkRState self w) = (Ok out, st) →
  ∃ w1 w2,
    cache_inlined_js cls (str_or (js cls) "") w = Ok w1
    ∧ cache_inlined_css cls (str_or (css cls) "") w1 = Ok w2
    ∧ world_le w2 (st_world st).
Proof.
  intros Hrt. unfold _render_impl. run_bind.
  destruct (_validate_inputs cls _ _ _) as [[]|e0]; simpl; [|done]. run_bind.
  destruct (get_context_data cls _ _) as [context_data|e1]; simpl; [| done].
  run_bind.
  destruct (_validate_outputs cls context_data) as [[]|e2]; simpl; [| done].
  run_bind.
  destruct (cache_inlined_js cls _ w) as [w1|e3] eqn:Hjs; simpl; [| done].
  run_bind.
  destruct (cache_inlined_css cls _ w1) as [w2|e4] eqn:Hcss; simpl; [| done].
  run_bind. unfold _prepare_template. run_bind.
  destruct (_get_template cls _) as [template_|e5]; simpl; [| done].
  destruct (_dc_patched template_) as [[]|]; simpl; [| done | done]. run_bind.
  destruct (on_render_before cls _ _) as [[]|e6]; simpl; [| done]. run_bind.
  match goal with
  | |- context [render_template ?t ?c ?st] =>
      pose proof (Hrt t c st) as Hgrow;
      destruct (render_template t c st) as [[html|e7] st7]
  end; simpl in *; [| done]. run_bind.
  destruct (on_render_after cls _ _ html) as [new_output|e8]; simpl; [| done].
  run_bind. unfold postprocess_component_html.
  match goal with
  | |- context [_insert_component_comment ?c ?k ?i ?w] =>
      pose proof (insert_component_comment_grows c k i w) as Hins;
      destruct (_insert_component_comment c k i w) as [output w9]
  end. simpl in Hins.
  assert (world_le w2 w9) as Hw9 by (by eapply world_le_trans).
  destruct (arg_render_dependencies a); simpl; run_bind.
  - destruct (_render_dependencies output (arg_type a) w9) as [final|e9];
      simpl; run_bind; [| done].
    intros [= <- <-]. by exists w1, w2.
  - intros [= <- <-]. by exists w1, w2.
Qed.
End RenderCaches.

Section RenderServes.
Context `{Externals}.

Lemma str_or_default (x : option string) : str_or x "" = default "" x.
Proof. destruct x as [s|]; [| done]. by destruct s. Qed.

Lemma cache_inlined_entry (script_type : string) (content_ : string)
    (cls : CompCls) (w w1 : World) :
  _is_nonempty_str (js cls) = true →
  (script_type = "js" ∧ cache_inlined_js cls content_ w = Ok w1)
  ∨ (script_type = "css" ∧ cache_inlined_css cls content_ w = Ok w1) →
  let key := _gen_cache_key (_hash_comp_cls cls) script_type in
  comp_media_cache w1 !! key
  = Some (default (strip content_) (comp_media_cache w !! key))
  ∧ ∀ key', key' ≠ key →
            comp_media_cache w1 !! key' = comp_media_cache w !! key'.
Proof.
  intros Hjs Hcache key.
  assert (w1 = if negb (bool_decide (is_Some (comp_media_cache w !! key)))
               then set_cache w (<[key := strip content_]> (comp_media_cache w))
               else w) as ->.
  { destruct Hcache as [[-> Hcache] | [-> Hcache]].
    - rewrite cache_inlined_js_eq, Hjs in Hcache. by injection Hcache.
    - rewrite cache_inlined_css_eq, Hjs in Hcache. by injection Hcache. }
  destruct (comp_media_cache w !! key) as [script|] eqn:Hbefore.
  - rewrite bool_decide_true by (by eexists). simpl. by rewrite Hbefore.
  - rewrite bool_decide_false by (by intros [? ?]). simpl.
    rewrite lookup_insert_eq. split; [done |].
    intros key' Hne. by rewrite lookup_insert_ne.
Qed.

Lemma render_caches cls a self w out st :
  _render cls a (MkRState self w) = (Ok out, st) →
  ∃ w1 w2,
    cache_inlined_js cls (str_or (js cls) "") w = Ok w1
    ∧ cache_inlined_css cls (str_or (css cls) "") w1 = Ok w2
    ∧ world_le w2 (st_world st).
Proof.
  intros Hrender.
  rewrite _render_unfold in Hrender. unfold _render_around in Hrender.
  rewrite bind_run in Hrender. unfold get_self, try_except in Hrender.
  simpl in Hrender.
  destruct (_render_impl _ cls a _) as [[out'|err] st'] eqn:Himpl; [| done].
  injection Hrender as <- <-.
  apply render_impl_caches in Himpl; [done |].
  intros t c. apply grows_render_nodelist, Forall_forall.
  intros [s | name [c'|] ? ? ? ? ?] _; try done. apply render_grows.
Qed.
End RenderServes.



(** ** The nodes of a template *)

Section TemplateNodes.
Context `{Externals}.

(** What a node of a template renders to, outside the extraction of
    fills: its text, or the marker of its class and of its id and then the
    HTML of the component. *)
Lemma ComponentNode_render_marks c name args kwargs fills node_id isolated
    context st out st' :
  is_extracting_fill context = false →
  ComponentNode_render (_render c) name (Some c) args kwargs fills node_id
    isolated context st = (Ok out, st') →
  st_self st' = st_self st
  ∧ comp_hash_mapping (st_world st') !! _hash_comp_cls c = Some c
  ∧ ∃ html,
      out = COMPONENT_DEPS_COMMENT
              (_hash_comp_cls c +:+ "," +:+ str_or node_id gen_id) +:+ html.
Proof.
  intros Hextract. unfold ComponentNode_render, on_instance. rewrite Hextract.
  destruct (_render c _ _) as [[out'|err] st''] eqn:Hrender; [| done].
  intros [= <- <-]. apply render_marks in Hrender as [Hreg [html Hout]].
  simpl in *. split; [done |]. split; [done |]. by exists html.
Qed.

Lemma render_nodelist_grows context nodes :
  grows (render_nodelist _render context nodes).
Proof.
  apply grows_render_nodelist, Forall_forall.
  intros [s | name [c|] ? ? ? ? ?] _; try done. apply render_grows.
Qed.

Lemma registered_grows w w' comp_cls_hash :
  world_le w w' → registered w comp_cls_hash → registered w' comp_cls_hash.
Proof.
  intros [_ Hdom]. unfold registered. rewrite <- !elem_of_dom. apply Hdom.
Qed.

Lemma render_nodelist_marks context nodes st out st' :
  is_extracting_fill context = false →
  render_nodelist _render context nodes st = (Ok out, st') →
  st_self st' = st_self st
  ∧ (∃ bits, out = concat_str bits ∧ Forall2 marked_output nodes bits)
  ∧ Forall (node_registered (st_world st')) nodes.
Proof.
  intros Hextract. revert st out st'.
  induction nodes as [|node nodes IH]; intros st out st'; simpl.
  - intros [= <- <-]. split; [done |]. split; [by exists [] | done].
  - rewrite bind_run.
    destruct node as [s | name [c|] args kwargs fills node_id isolated].
    + simpl. rewrite bind_run.
      destruct (render_nodelist _render context nodes st)
        as [[rest|err] st1] eqn:Hrest; [| done].
      simpl. intros [= <- <-].
      apply IH in Hrest as (Hself & (bits & -> & Hbits) & Hreg).
      split; [done |]. split; [| by constructor].
      exists (s :: bits). split; [done | by constructor].
    + destruct (ComponentNode_render _ _ _ _ _ _ _ _ _ st)
        as [[bit|err] st1] eqn:Hbit; [| done].
      apply ComponentNode_render_marks in Hbit as (Hself1 & Hreg1 & Hmark);
        [| done].
      rewrite bind_run.
      pose proof (render_nodelist_grows context nodes st1) as Hgrow.
      destruct (render_nodelist _render context nodes st1)
        as [[rest|err] st2] eqn:Hrest; [| done].
      simpl in Hgrow |- *. intros [= <- <-].
      apply IH in Hrest as (Hself & (bits & -> & Hbits) & Hreg).
      split; [congruence |]. split.
      * exists (bit :: bits). split; [done | by constructor].
      * constructor; [| done]. simpl.
        eapply registered_grows; [exact Hgrow | by eexists].
    + unfold ComponentNode_render. by rewrite Hextract.
Qed.
End TemplateNodes.



(** ** Errors of nested renders, again *)



(** ** The middleware *)

(** X14: the middleware touches only a response that is not streaming
    and whose [Content-Type] starts with [text/html]: any other response is
    returned as it is, whatever the request.  For an HTML response it needs
    the [htmx] attribute of the request (else the assertion fails), and
    the content becomes what [render_dependencies] makes of it, as a
    fragment for an htmx request and as a document otherwise; an error of
    [render_dependencies] is the error of the middleware. *)
Theorem middleware_processes_html_only `{Externals} (request : HttpRequest)
    (response : Response) (w : World) :
  let is_html :=
    negb (is_streaming response)
    && starts_with "text/html"
         (default "" (headers response !! "Content-Type")) in
  (is_html = false → _process_response request response w = Ok response)
  ∧ (is_html = true → htmx request = None →
     ∃ err, _process_response request response w = Raise err
            ∧ exn_class err = "AssertionError")
  ∧ (is_html = true → ∀ is_htmx, htmx request = Some is_htmx →
     _process_response request response w
     = (content_ ←
          _render_dependencies (content response)
            (if is_htmx : bool then "fragment" else "document") w;
        Ok (MkResponse false (headers response) content_))).
Proof.
  intros is_html. unfold _process_response. fold is_html.
  split; [by intros -> |]. split.
  - intros -> Hhtmx. unfold decide_render_type_htmx. rewrite Hhtmx.
    by eexists.
  - intros Hhtml is_htmx Hhtmx. rewrite Hhtml.
    unfold decide_render_type_htmx. rewrite Hhtmx.
    assert (is_streaming response = false) as ->.
    { subst is_html. by destruct (is_streaming response). }
    by destruct is_htmx.
Qed.

Lemma middleware_processes_html_only_witness :
  let E := Sample.externals in
  let json := MkResponse false {["Content-Type" := "application/json"]} "{}" in
  let page :=
    MkResponse false {["Content-Type" := "text/html; charset=utf-8"]}
      ("<p>hi</p>" +:+ JS_DEPENDENCY_PLACEHOLDER) in
  _process_response (MkHttpRequest None) json Sample.empty_world = Ok json
  ∧ _process_response (MkHttpRequest (Some true)) page Sample.empty_world
    = Ok (MkResponse false {["Content-Type" := "text/html; charset=utf-8"]}
            "<p>hi</p>").
Proof.
  intros E json page. split.
  - by apply (proj1 (middleware_processes_html_only (MkHttpRequest None) json
                       Sample.empty_world)).
  - rewrite (proj2 (proj2 (middleware_processes_html_only
                             (MkHttpRequest (Some true)) page
                             Sample.empty_world)) eq_refl true eq_refl).
    reflexivity.
Defined.

(** ** The response of a component *)



(** ** One placeholder only *)

Lemma js_placeholder_not_found (f : bool → string) s :
  contains JS_DEPENDENCY_PLACEHOLDER s = false →
  existsb negb (regex_sub PLACEHOLDER_REGEX f 0 s).1 = false.
Proof.
  remember (String.length s) as n eqn:Hn. revert s Hn.
  induction n as [n IH] using lt_wf_ind. intros s -> Hs.
  pose proof (placeholder_regex_cases s) as Hm.
  destruct (PLACEHOLDER_REGEX s) as [[[] rest]|] eqn:Ematch.
  - subst s. rewrite (regex_sub_match _ _ _ true rest) by done.
    rewrite contains_js_after_css in Hs. simpl.
    eapply IH; [| done | done]. rewrite length_append. simpl. lia.
  - subst s. by rewrite (contains_starts_with _ _ (starts_with_app _ _)) in Hs.
  - destruct s as [|c s]; [done |].
    rewrite regex_sub_no_match by done.
    rewrite contains_cons in Hs. apply orb_false_iff in Hs as [_ Hs].
    simpl. eapply IH; [| done | done]. simpl. lia.
Qed.

Lemma css_placeholder_not_found (f : bool → string) s :
  contains CSS_DEPENDENCY_PLACEHOLDER s = false →
  existsb id (regex_sub PLACEHOLDER_REGEX f 0 s).1 = false.
Proof.
  remember (String.length s) as n eqn:Hn. revert s Hn.
  induction n as [n IH] using lt_wf_ind. intros s -> Hs.
  pose proof (placeholder_regex_cases s) as Hm.
  destruct (PLACEHOLDER_REGEX s) as [[[] rest]|] eqn:Ematch.
  - subst s. by rewrite (contains_starts_with _ _ (starts_with_app _ _)) in Hs.
  - subst s. rewrite (regex_sub_match _ _ _ false rest) by done.
    rewrite contains_css_after_js in Hs. simpl.
    eapply IH; [| done | done]. rewrite length_append. simpl. lia.
  - destruct s as [|c s]; [done |].
    rewrite regex_sub_no_match by done.
    rewrite contains_cons in Hs. apply orb_false_iff in Hs as [_ Hs].
    simpl. eapply IH; [| done | done]. simpl. lia.
Qed.

Section OnePlaceholder.
Context `{Externals}.

(** The default location of one kind of asset, the other kind being at its
    placeholder. *)
Lemma insert_one_default tag new text :
  let elems := from_fragment text in
  default text
    (match elems with
     | [] => None
     | _ =>
         let '(elems', did) := insert_loop tag (Some new) elems in
         if did then Some (to_html_multiroot elems') else None
     end)
  = if bool_decide (Exists (has_section tag) elems)
    then to_html_multiroot (at_end_of tag (from_fragment new) <$> elems)
    else text.
Proof.
  intros elems.
  pose proof (insert_loop_nodes tag new elems) as Hnodes.
  pose proof (insert_loop_found tag new elems) as Hfound.
  destruct (insert_loop tag (Some new) elems) as [elems' did].
  simpl in Hnodes, Hfound. subst elems'.
  case_bool_decide as Hsection.
  - rewrite (proj2 Hfound Hsection).
    destruct elems; [by apply Exists_nil in Hsection | done].
  - destruct did; [by destruct Hsection; apply Hfound |].
    by destruct elems.
Qed.
End OnePlaceholder.


